(** * English Booster affiliate back office: handlers over a relational store

    A shallow embedding of the server handlers (auth, programs, registrations,
    tracking, payouts, affiliate, commission) and of the tables they read and
    write (db/schema.ts).

    Conventions of the embedding:
    - a table is the list of its rows, oldest first; [db.select().where(c)] is
      [filter c], [db.insert] appends a row whose [id] comes from the table's
      serial sequence, [db.update().set(f).where(c)] maps [f] over the rows
      that satisfy [c] and returns the rows it changed;
    - JavaScript numbers that hold money (fee, commission_rate,
      commission_amount, amount) and the [numeric] columns that store them are
      exact rationals [Q]; [parseFloat] and [toString] at the store boundary
      are the identity, results are compared with [==];
    - a [Date] is the number of milliseconds since the epoch; every
      [new Date()], [Date.now()] and column default [now()] a handler
      evaluates is an argument of its model, in the order of evaluation;
    - [Math.random().toString(36)] is drawn from a supply of base-36
      expansions;
    - an [async] handler is a function from the store to an outcome (the value
      it resolves to, or the message of the [Error] it rejects with) and the
      store it leaves; the [catch] blocks only log and rethrow;
    - [hashPassword] (SHA-256 in hexadecimal) is a parameter of the two
      handlers that call it;
    - the [while (!isUnique)] loop of [registerUser] has no bound in the
      source: its model takes the number of iterations it may run and answers
      [None] when they do not suffice. *)

From Stdlib Require Import List String Ascii Bool ZArith NArith QArith Lia Lqa.
Import ListNotations.

Local Open Scope string_scope.
Local Open Scope Z_scope.

(** ** Enumerations (db/schema.ts, schema.ts) *)

Inductive UserRole := affiliate | admin.
Inductive CommissionType := percentage | flat.
Inductive ProgramType := online | offline_pare | rombongan | cabang.
Inductive RegistrationStatus := pending | payment_verified.
Inductive PayoutStatus := payout_pending | paid.

Definition UserRole_eqb (a b : UserRole) : bool :=
  match a, b with
  | affiliate, affiliate | admin, admin => true
  | _, _ => false
  end.

Definition CommissionType_eqb (a b : CommissionType) : bool :=
  match a, b with
  | percentage, percentage | flat, flat => true
  | _, _ => false
  end.

Definition RegistrationStatus_eqb (a b : RegistrationStatus) : bool :=
  match a, b with
  | pending, pending | payment_verified, payment_verified => true
  | _, _ => false
  end.

Definition PayoutStatus_eqb (a b : PayoutStatus) : bool :=
  match a, b with
  | payout_pending, payout_pending | paid, paid => true
  | _, _ => false
  end.

(** Milliseconds since the epoch. *)
Definition Date := N.

(** ** Rows *)

Module User.
Record t := mk {
  id : Z;
  email : string;
  password_hash : string;
  full_name : string;
  role : UserRole;
  affiliate_code : option string;
  created_at : Date;
  updated_at : Date
}.
End User.

Module Program.
Record t := mk {
  id : Z;
  name : string;
  type : ProgramType;
  fee : Q;
  commission_rate : Q;
  commission_type : CommissionType;
  description : option string;
  is_active : bool;
  created_at : Date;
  updated_at : Date
}.
End Program.

Module Registration.
Record t := mk {
  id : Z;
  affiliate_id : Z;
  program_id : Z;
  student_name : string;
  student_email : string;
  student_phone : string;
  status : RegistrationStatus;
  commission_amount : Q;
  registration_date : Date;
  payment_verified_at : option Date;
  created_at : Date;
  updated_at : Date
}.
End Registration.

Module LinkClick.
Record t := mk {
  id : Z;
  affiliate_id : Z;
  ip_address : string;
  user_agent : option string;
  clicked_at : Date
}.
End LinkClick.

Module PayoutRequest.
Record t := mk {
  id : Z;
  affiliate_id : Z;
  amount : Q;
  bank_name : string;
  account_number : string;
  account_holder_name : string;
  status : PayoutStatus;
  requested_at : Date;
  processed_at : option Date;
  created_at : Date;
  updated_at : Date
}.
End PayoutRequest.

(** ** The store: five tables and their serial sequences *)

Record DB := mkDB {
  usersTable : list User.t;
  programsTable : list Program.t;
  registrationsTable : list Registration.t;
  linkClicksTable : list LinkClick.t;
  payoutRequestsTable : list PayoutRequest.t;
  users_id_seq : Z;
  programs_id_seq : Z;
  registrations_id_seq : Z;
  link_clicks_id_seq : Z;
  payout_requests_id_seq : Z
}.

Definition emptyDB : DB := mkDB [] [] [] [] [] 0 0 0 0 0.

(** ** Handlers: outcome and store *)

Inductive Outcome (A : Type) : Type :=
| Resolved (a : A)
| Rejected (message : string).
Arguments Resolved {A} a.
Arguments Rejected {A} message.

Definition Handler (A : Type) : Type := DB -> Outcome A * DB.

Definition ret {A} (a : A) : Handler A := fun db => (Resolved a, db).

Definition throw {A} (message : string) : Handler A :=
  fun db => (Rejected message, db).

Definition bind {A B} (m : Handler A) (k : A -> Handler B) : Handler B :=
  fun db =>
    match m db with
    | (Resolved a, db') => k a db'
    | (Rejected e, db') => (Rejected e, db')
    end.

Definition query {A} (f : DB -> A) : Handler A := fun db => (Resolved (f db), db).

Declare Scope handler_scope.
Delimit Scope handler_scope with handler.
Notation "x <- m ;; k" := (bind m (fun x => k))
  (at level 61, m at next level, right associativity) : handler_scope.

(** ** SQL fragments *)

(** [eq(column, value)] on a nullable text column: NULL matches nothing. *)
Definition eq_nullable (column : option string) (value : string) : bool :=
  match column with
  | Some c => String.eqb c value
  | None => false
  end.

(** [sum(column)]: NULL over no rows, the total otherwise. *)
Definition sql_sum (values : list Q) : option Q :=
  match values with
  | [] => None
  | v :: vs => Some (fold_left Qplus vs v)
  end.

(** [count()]. *)
Definition sql_count {A} (rows : list A) : Z := Z.of_nat (List.length rows).

(** [Math.max(a, b)]. *)
Definition Math_max (a b : Q) : Q := if Qle_bool a b then b else a.

(** [a < b] on numbers. *)
Definition Qltb (a b : Q) : bool := negb (Qle_bool b a).

(** ** handlers/commission.ts *)

Definition calculateCommission (program : Program.t) : Q :=
  let commission :=
    if CommissionType_eqb (Program.commission_type program) percentage then
      ((Program.fee program * Program.commission_rate program) / 100)%Q
    else if CommissionType_eqb (Program.commission_type program) flat then
      Program.commission_rate program
    else 0%Q
  in
  Math_max 0%Q commission.

(** ** Writes *)

Definition set_usersTable (rows : list User.t) (seq : Z) (db : DB) : DB :=
  mkDB rows (programsTable db) (registrationsTable db) (linkClicksTable db)
       (payoutRequestsTable db)
       seq (programs_id_seq db) (registrations_id_seq db)
       (link_clicks_id_seq db) (payout_requests_id_seq db).

Definition set_programsTable (rows : list Program.t) (seq : Z) (db : DB) : DB :=
  mkDB (usersTable db) rows (registrationsTable db) (linkClicksTable db)
       (payoutRequestsTable db)
       (users_id_seq db) seq (registrations_id_seq db)
       (link_clicks_id_seq db) (payout_requests_id_seq db).

Definition set_registrationsTable (rows : list Registration.t) (seq : Z) (db : DB) : DB :=
  mkDB (usersTable db) (programsTable db) rows (linkClicksTable db)
       (payoutRequestsTable db)
       (users_id_seq db) (programs_id_seq db) seq
       (link_clicks_id_seq db) (payout_requests_id_seq db).

Definition set_linkClicksTable (rows : list LinkClick.t) (seq : Z) (db : DB) : DB :=
  mkDB (usersTable db) (programsTable db) (registrationsTable db) rows
       (payoutRequestsTable db)
       (users_id_seq db) (programs_id_seq db) (registrations_id_seq db)
       seq (payout_requests_id_seq db).

Definition set_payoutRequestsTable (rows : list PayoutRequest.t) (seq : Z) (db : DB) : DB :=
  mkDB (usersTable db) (programsTable db) (registrationsTable db)
       (linkClicksTable db) rows
       (users_id_seq db) (programs_id_seq db) (registrations_id_seq db)
       (link_clicks_id_seq db) seq.

(** [db.insert(table).values(v).returning()]: the row takes the next value of
    the table's sequence and is returned. *)
Definition insert_user (values : Z -> User.t) : Handler User.t :=
  fun db =>
    let row := values (users_id_seq db + 1) in
    (Resolved row, set_usersTable (usersTable db ++ [row]) (users_id_seq db + 1) db).

Definition insert_program (values : Z -> Program.t) : Handler Program.t :=
  fun db =>
    let row := values (programs_id_seq db + 1) in
    (Resolved row,
     set_programsTable (programsTable db ++ [row]) (programs_id_seq db + 1) db).

Definition insert_registration (values : Z -> Registration.t) : Handler Registration.t :=
  fun db =>
    let row := values (registrations_id_seq db + 1) in
    (Resolved row,
     set_registrationsTable (registrationsTable db ++ [row])
                            (registrations_id_seq db + 1) db).

Definition insert_link_click (values : Z -> LinkClick.t) : Handler LinkClick.t :=
  fun db =>
    let row := values (link_clicks_id_seq db + 1) in
    (Resolved row,
     set_linkClicksTable (linkClicksTable db ++ [row]) (link_clicks_id_seq db + 1) db).

Definition insert_payout_request (values : Z -> PayoutRequest.t) : Handler PayoutRequest.t :=
  fun db =>
    let row := values (payout_requests_id_seq db + 1) in
    (Resolved row,
     set_payoutRequestsTable (payoutRequestsTable db ++ [row])
                             (payout_requests_id_seq db + 1) db).

(** [db.update(table).set(f).where(c).returning()]. *)
Definition update_rows {A} (c : A -> bool) (f : A -> A) (rows : list A) : list A :=
  map (fun r => if c r then f r else r) rows.

Definition returning {A} (c : A -> bool) (f : A -> A) (rows : list A) : list A :=
  map f (filter c rows).

Definition update_programs (c : Program.t -> bool) (f : Program.t -> Program.t)
  : Handler (list Program.t) :=
  fun db =>
    (Resolved (returning c f (programsTable db)),
     set_programsTable (update_rows c f (programsTable db)) (programs_id_seq db) db).

Definition update_registrations (c : Registration.t -> bool)
    (f : Registration.t -> Registration.t) : Handler (list Registration.t) :=
  fun db =>
    (Resolved (returning c f (registrationsTable db)),
     set_registrationsTable (update_rows c f (registrationsTable db))
                            (registrations_id_seq db) db).

Definition update_payout_requests (c : PayoutRequest.t -> bool)
    (f : PayoutRequest.t -> PayoutRequest.t) : Handler (list PayoutRequest.t) :=
  fun db =>
    (Resolved (returning c f (payoutRequestsTable db)),
     set_payoutRequestsTable (update_rows c f (payoutRequestsTable db))
                             (payout_requests_id_seq db) db).

Local Open Scope handler_scope.

(** ** handlers/registrations.ts *)

Module CreateRegistrationInput.
Record t := mk {
  affiliate_code : string;
  program_id : Z;
  student_name : string;
  student_email : string;
  student_phone : string
}.
End CreateRegistrationInput.

(** [where(and(eq(affiliate_code, code), eq(role, 'affiliate')))]. *)
Definition is_affiliate_with_code (code : string) (u : User.t) : bool :=
  eq_nullable (User.affiliate_code u) code && UserRole_eqb (User.role u) affiliate.

(** [where(and(eq(id, program_id), eq(is_active, true)))]. *)
Definition is_active_program (program_id : Z) (p : Program.t) : bool :=
  (Program.id p =? program_id) && Bool.eqb (Program.is_active p) true.

(** The commission computed inline by [createRegistration]. *)
Definition commissionAmount (program : Program.t) : Q :=
  let programFee := Program.fee program in
  let commissionRate := Program.commission_rate program in
  if CommissionType_eqb (Program.commission_type program) percentage
  then ((programFee * commissionRate) / 100)%Q
  else commissionRate.

(** [now] is the value of the column default [now()] at the insert. *)
Definition createRegistration (now : Date) (input : CreateRegistrationInput.t)
  : Handler Registration.t :=
  affiliates <- query (fun db =>
    filter (is_affiliate_with_code (CreateRegistrationInput.affiliate_code input))
           (usersTable db)) ;;
  match affiliates with
  | [] => throw "Affiliate not found"
  | the_affiliate :: _ =>
    programs <- query (fun db =>
      filter (is_active_program (CreateRegistrationInput.program_id input))
             (programsTable db)) ;;
    match programs with
    | [] => throw "Program not found or inactive"
    | program :: _ =>
      insert_registration (fun id =>
        Registration.mk id
          (User.id the_affiliate)
          (CreateRegistrationInput.program_id input)
          (CreateRegistrationInput.student_name input)
          (CreateRegistrationInput.student_email input)
          (CreateRegistrationInput.student_phone input)
          pending
          (commissionAmount program)
          now None now now)
    end
  end.

Definition set_payment_verified (verified_at updated_at : Date) (r : Registration.t)
  : Registration.t :=
  Registration.mk (Registration.id r) (Registration.affiliate_id r)
    (Registration.program_id r) (Registration.student_name r)
    (Registration.student_email r) (Registration.student_phone r)
    payment_verified
    (Registration.commission_amount r) (Registration.registration_date r)
    (Some verified_at)
    (Registration.created_at r) updated_at.

(** [verified_at] and [updated_at] are the two [new Date()] of the [set]. *)
Definition verifyPayment (verified_at updated_at : Date) (registration_id : Z)
  : Handler Registration.t :=
  result <- update_registrations
              (fun r => Registration.id r =? registration_id)
              (set_payment_verified verified_at updated_at) ;;
  match result with
  | [] => throw "Registration not found"
  | registration :: _ => ret registration
  end.

Definition getAllRegistrations : Handler (list Registration.t) :=
  query registrationsTable.

Definition getRegistrationsByAffiliate (affiliateId : Z) : Handler (list Registration.t) :=
  query (fun db =>
    filter (fun r => Registration.affiliate_id r =? affiliateId) (registrationsTable db)).

(** ** handlers/tracking.ts *)

Module TrackLinkClickInput.
Record t := mk {
  affiliate_code : string;
  ip_address : string;
  user_agent : option string
}.
End TrackLinkClickInput.

Module AffiliateStats.
Record t := mk {
  total_clicks : Z;
  total_registrations : Z;
  total_commission : Q;
  pending_commission : Q;
  verified_commission : Q
}.
End AffiliateStats.

Definition trackLinkClick (now : Date) (input : TrackLinkClickInput.t)
  : Handler LinkClick.t :=
  affiliates <- query (fun db =>
    filter (is_affiliate_with_code (TrackLinkClickInput.affiliate_code input))
           (usersTable db)) ;;
  match affiliates with
  | [] => throw ("Affiliate not found with code: "
                 ++ TrackLinkClickInput.affiliate_code input)
  | the_affiliate :: _ =>
    insert_link_click (fun id =>
      LinkClick.mk id (User.id the_affiliate)
        (TrackLinkClickInput.ip_address input)
        (TrackLinkClickInput.user_agent input)
        now)
  end.

(** [where(and(eq(affiliate_id, id), eq(status, s)))]. *)
Definition registration_of (affiliateId : Z) (s : RegistrationStatus)
    (r : Registration.t) : bool :=
  (Registration.affiliate_id r =? affiliateId)
  && RegistrationStatus_eqb (Registration.status r) s.

(** [x || 0] on a count. *)
Definition or_zero (count : Z) : Z := if count =? 0 then 0 else count.

(** [total ? parseFloat(total) : 0] and [parseFloat(total || '0')] on the
    result of a [sum]. *)
Definition parse_or_zero (total : option Q) : Q :=
  match total with
  | Some v => v
  | None => 0%Q
  end.

Definition getAffiliateStats (affiliateId : Z) : Handler AffiliateStats.t :=
  clicksResult <- query (fun db =>
    sql_count (filter (fun c => LinkClick.affiliate_id c =? affiliateId)
                      (linkClicksTable db))) ;;
  registrationsResult <- query (fun db =>
    sql_count (filter (fun r => Registration.affiliate_id r =? affiliateId)
                      (registrationsTable db))) ;;
  totalCommissionResult <- query (fun db =>
    sql_sum (map Registration.commission_amount
               (filter (fun r => Registration.affiliate_id r =? affiliateId)
                       (registrationsTable db)))) ;;
  pendingCommissionResult <- query (fun db =>
    sql_sum (map Registration.commission_amount
               (filter (registration_of affiliateId pending)
                       (registrationsTable db)))) ;;
  verifiedCommissionResult <- query (fun db =>
    sql_sum (map Registration.commission_amount
               (filter (registration_of affiliateId payment_verified)
                       (registrationsTable db)))) ;;
  let totalClicks := or_zero clicksResult in
  let totalRegistrations := or_zero registrationsResult in
  let totalCommission := parse_or_zero totalCommissionResult in
  let pendingCommission := parse_or_zero pendingCommissionResult in
  let verifiedCommission := parse_or_zero verifiedCommissionResult in
  ret (AffiliateStats.mk totalClicks totalRegistrations totalCommission
         pendingCommission verifiedCommission).

Definition getLinkClicksByAffiliate (affiliateId : Z) : Handler (list LinkClick.t) :=
  query (fun db =>
    filter (fun c => LinkClick.affiliate_id c =? affiliateId) (linkClicksTable db)).

(** ** handlers/payouts.ts *)

Module CreatePayoutRequestInput.
Record t := mk {
  amount : Q;
  bank_name : string;
  account_number : string;
  account_holder_name : string
}.
End CreatePayoutRequestInput.

Module UpdatePayoutStatusInput.
Record t := mk {
  id : Z;
  status : PayoutStatus
}.
End UpdatePayoutStatusInput.

(** [where(and(eq(id, affiliateId), eq(role, 'affiliate')))]. *)
Definition is_affiliate_with_id (affiliateId : Z) (u : User.t) : bool :=
  (User.id u =? affiliateId) && UserRole_eqb (User.role u) affiliate.

Definition totalVerifiedCommission (affiliateId : Z) (db : DB) : Q :=
  parse_or_zero
    (sql_sum (map Registration.commission_amount
                (filter (registration_of affiliateId payment_verified)
                        (registrationsTable db)))).

Definition totalPayoutRequests (affiliateId : Z) (db : DB) : Q :=
  parse_or_zero
    (sql_sum (map PayoutRequest.amount
                (filter (fun p => PayoutRequest.affiliate_id p =? affiliateId)
                        (payoutRequestsTable db)))).

(** [requested_at] is the handler's [new Date()], [now] the column default of
    [created_at] and [updated_at]. *)
Definition createPayoutRequest (requested_at now : Date) (affiliateId : Z)
    (input : CreatePayoutRequestInput.t) : Handler PayoutRequest.t :=
  the_affiliate <- query (fun db =>
    filter (is_affiliate_with_id affiliateId) (usersTable db)) ;;
  match the_affiliate with
  | [] => throw "Affiliate not found"
  | _ :: _ =>
    totalVerified <- query (totalVerifiedCommission affiliateId) ;;
    totalPayouts <- query (totalPayoutRequests affiliateId) ;;
    let availableCommission := (totalVerified - totalPayouts)%Q in
    if Qltb availableCommission (CreatePayoutRequestInput.amount input)
    then throw "Insufficient verified commission balance"
    else
      insert_payout_request (fun id =>
        PayoutRequest.mk id affiliateId
          (CreatePayoutRequestInput.amount input)
          (CreatePayoutRequestInput.bank_name input)
          (CreatePayoutRequestInput.account_number input)
          (CreatePayoutRequestInput.account_holder_name input)
          payout_pending
          requested_at None now now)
  end.

(** The [set] of [updatePayoutStatus]: [processed_at] is a key of
    [updateData] only when the new status is [paid]. *)
Definition set_payout_status (status : PayoutStatus) (updated_at processed_at : Date)
    (p : PayoutRequest.t) : PayoutRequest.t :=
  PayoutRequest.mk (PayoutRequest.id p) (PayoutRequest.affiliate_id p)
    (PayoutRequest.amount p) (PayoutRequest.bank_name p)
    (PayoutRequest.account_number p) (PayoutRequest.account_holder_name p)
    status
    (PayoutRequest.requested_at p)
    (if PayoutStatus_eqb status paid then Some processed_at
     else PayoutRequest.processed_at p)
    (PayoutRequest.created_at p) updated_at.

(** [updated_at] and [processed_at] are the handler's two [new Date()]; the
    second is evaluated only when the new status is [paid]. *)
Definition updatePayoutStatus (updated_at processed_at : Date)
    (input : UpdatePayoutStatusInput.t) : Handler PayoutRequest.t :=
  existingPayout <- query (fun db =>
    filter (fun p => PayoutRequest.id p =? UpdatePayoutStatusInput.id input)
           (payoutRequestsTable db)) ;;
  match existingPayout with
  | [] => throw "Payout request not found"
  | _ :: _ =>
    result <- update_payout_requests
                (fun p => PayoutRequest.id p =? UpdatePayoutStatusInput.id input)
                (set_payout_status (UpdatePayoutStatusInput.status input)
                                   updated_at processed_at) ;;
    match result with
    | payoutRequest :: _ => ret payoutRequest
    | [] => throw "Cannot read properties of undefined (reading 'amount')"
    end
  end.

Definition getPayoutRequestsByAffiliate (affiliateId : Z)
  : Handler (list PayoutRequest.t) :=
  the_affiliate <- query (fun db =>
    filter (is_affiliate_with_id affiliateId) (usersTable db)) ;;
  match the_affiliate with
  | [] => throw "Affiliate not found"
  | _ :: _ =>
    query (fun db =>
      filter (fun p => PayoutRequest.affiliate_id p =? affiliateId)
             (payoutRequestsTable db))
  end.


(** ** JavaScript strings and numbers used by the code generators *)

Local Open Scope N_scope.

(** The digit of [Number.prototype.toString(radix)]: [0-9] then [a-z]. *)
Definition digit_char (d : N) : ascii :=
  if d <? 10 then ascii_of_N (48 + d) else ascii_of_N (87 + d).

Fixpoint toString_digits (fuel : nat) (radix n : N) (acc : string) : string :=
  match fuel with
  | O => acc
  | S fuel' =>
    let acc' := String (digit_char (n mod radix)) acc in
    if n / radix =? 0 then acc'
    else toString_digits fuel' radix (n / radix) acc'
  end.

(** [n.toString(radix)] on a non-negative integer. *)
Definition Number_toString (radix n : N) : string :=
  toString_digits (S (N.size_nat n)) radix n "".

(** [parseInt(s, radix)] on a string of digits, from the value read so far. *)
Definition char_digit (c : ascii) : N :=
  let n := N_of_ascii c in
  if n <? 58 then n - 48 else n - 87.

Fixpoint parseInt_from (radix value : N) (s : string) : N :=
  match s with
  | EmptyString => value
  | String c s' => parseInt_from radix (value * radix + char_digit c) s'
  end.

Definition parseInt (s : string) (radix : N) : N := parseInt_from radix 0 s.

(** [Math.random().toString(36)], from the base-36 digits of the fraction:
    ["0"] for zero, ["0." ++ digits] otherwise. *)
Definition random_toString36 (digits : list N) : string :=
  match digits with
  | [] => "0"
  | _ => "0." ++ string_of_list_ascii (map (fun d => digit_char (d mod 36)) digits)
  end.

Definition toUpperCase_char (c : ascii) : ascii :=
  let n := N_of_ascii c in
  if (97 <=? n) && (n <=? 122) then ascii_of_N (n - 32) else c.

Fixpoint toUpperCase (s : string) : string :=
  match s with
  | EmptyString => EmptyString
  | String c s' => String (toUpperCase_char c) (toUpperCase s')
  end.

(** [s.substring(2, 7)] and [s.substr(2, 5)]. *)
Definition substring_2_7 (s : string) : string := substring 2 5 s.

(** [s.slice(-6)]. *)
Definition slice_last6 (s : string) : string :=
  substring (String.length s - 6) 6 s.

Local Close Scope N_scope.

(** ** handlers/affiliate.ts *)

(** [where(eq(affiliate_code, code))]. *)
Definition code_exists (code : string) (db : DB) : bool :=
  existsb (fun u => eq_nullable (User.affiliate_code u) code) (usersTable db).

Definition getAffiliateByCode (affiliateCode : string) : Handler (option User.t) :=
  results <- query (fun db =>
    filter (fun u => eq_nullable (User.affiliate_code u) affiliateCode) (usersTable db)) ;;
  match results with
  | [] => ret None
  | the_affiliate :: _ => ret (Some the_affiliate)
  end.

Definition getAllAffiliates : Handler (list User.t) :=
  query (fun db => filter (fun u => UserRole_eqb (User.role u) affiliate) (usersTable db)).

(** The candidate of one iteration of [generateUniqueAffiliateCode]. *)
Definition random_code (digits : list N) : string :=
  "AFF" ++ toUpperCase (substring_2_7 (random_toString36 digits)).

(** The code returned after the loop. *)
Definition timestamp_code (now : Date) : string :=
  let timestamp := slice_last6 (Number_toString 10 now) in
  "AFF" ++ timestamp.

Definition maxAttempts : nat := 10.

(** The [while (attempts < maxAttempts)] loop, by the attempts that remain:
    [random attempts] is the [Math.random()] of iteration [attempts], [now]
    the [Date.now()] read after the loop. *)
Fixpoint generate_loop (remaining attempts : nat) (random : nat -> list N)
    (now : Date) (db : DB) : string :=
  match remaining with
  | O => timestamp_code now
  | S remaining' =>
    let code := random_code (random attempts) in
    if code_exists code db
    then generate_loop remaining' (S attempts) random now db
    else code
  end.

Definition generateUniqueAffiliateCode (random : nat -> list N) (now : Date)
  : Handler string :=
  query (generate_loop maxAttempts 0 random now).

(** ** handlers/auth.ts *)

Module CreateUserInput.
Record t := mk {
  email : string;
  password : string;
  full_name : string;
  role : UserRole
}.
End CreateUserInput.

Module LoginInput.
Record t := mk {
  email : string;
  password : string
}.
End LoginInput.

(** [generateAffiliateCode()]: [now] is its [Date.now()], [digits] its
    [Math.random()]. *)
Definition generateAffiliateCode (now : Date) (digits : list N) : string :=
  let timestamp := Number_toString 36 now in
  let random := substring_2_7 (random_toString36 digits) in
  toUpperCase ("AFF" ++ timestamp ++ random).

(** The [while (!isUnique)] loop of [registerUser], which has no bound of its
    own: [None] when [fuel] iterations did not leave it. [clock i] and
    [random i] are the [Date.now()] and [Math.random()] of iteration [i]. *)
Fixpoint unique_code_loop (fuel iteration : nat) (clock : nat -> Date)
    (random : nat -> list N) (db : DB) : option string :=
  match fuel with
  | O => None
  | S fuel' =>
    let affiliateCode := generateAffiliateCode (clock iteration) (random iteration) in
    if code_exists affiliateCode db
    then unique_code_loop fuel' (S iteration) clock random db
    else Some affiliateCode
  end.

Section Auth.

(** SHA-256 of the password, in hexadecimal. *)
Variable hashPassword : string -> string.

(** [now] is the column default of [created_at] and [updated_at]. *)
Definition registerUser (fuel : nat) (clock : nat -> Date) (random : nat -> list N)
    (now : Date) (input : CreateUserInput.t) (db : DB)
  : option (Outcome User.t * DB) :=
  match firstn 1 (filter (fun u => String.eqb (User.email u)
                                              (CreateUserInput.email input))
                         (usersTable db)) with
  | _ :: _ => Some (throw "Email already exists" db)
  | [] =>
    let passwordHash := hashPassword (CreateUserInput.password input) in
    let create (affiliateCode : option string) :=
      insert_user (fun id =>
        User.mk id (CreateUserInput.email input) passwordHash
          (CreateUserInput.full_name input) (CreateUserInput.role input)
          affiliateCode now now) db in
    if UserRole_eqb (CreateUserInput.role input) affiliate then
      match unique_code_loop fuel 0 clock random db with
      | Some affiliateCode => Some (create (Some affiliateCode))
      | None => None
      end
    else Some (create None)
  end.

Definition loginUser (input : LoginInput.t) : Handler User.t :=
  users <- query (fun db =>
    firstn 1 (filter (fun u => String.eqb (User.email u) (LoginInput.email input))
                     (usersTable db))) ;;
  match users with
  | [] => throw "Invalid email or password"
  | user :: _ =>
    let hashedInput := hashPassword (LoginInput.password input) in
    if negb (String.eqb hashedInput (User.password_hash user))
    then throw "Invalid email or password"
    else ret user
  end.

End Auth.

(** ** handlers/seed.ts *)

Definition createAdminUser (now : Date) : Handler User.t :=
  existingAdmin <- query (fun db =>
    filter (fun u => String.eqb (User.email u) "admin@englishbooster.com")
           (usersTable db)) ;;
  match existingAdmin with
  | existing :: _ => ret existing
  | [] =>
    insert_user (fun id =>
      User.mk id "admin@englishbooster.com" "admin123" "English Booster Admin"
        admin None now now)
  end.

(** ** handlers/programs.ts *)

Module CreateProgramInput.
Record t := mk {
  name : string;
  type : ProgramType;
  fee : Q;
  commission_rate : Q;
  commission_type : CommissionType;
  description : option string;
  is_active : bool
}.
End CreateProgramInput.

Definition createProgram (now : Date) (input : CreateProgramInput.t) : Handler Program.t :=
  insert_program (fun id =>
    Program.mk id (CreateProgramInput.name input) (CreateProgramInput.type input)
      (CreateProgramInput.fee input) (CreateProgramInput.commission_rate input)
      (CreateProgramInput.commission_type input)
      (CreateProgramInput.description input)
      (CreateProgramInput.is_active input) now now).

Module UpdateProgramInput.
Record t := mk {
  id : Z;
  name : option string;
  type : option ProgramType;
  fee : option Q;
  commission_rate : option Q;
  commission_type : option CommissionType;
  description : option (option string);
  is_active : option bool
}.
End UpdateProgramInput.

(** [if (input.x !== undefined) updateData.x = input.x]. *)
Definition provided {A} (input : option A) (stored : A) : A :=
  match input with
  | Some v => v
  | None => stored
  end.

Definition set_program_fields (updated_at : Date) (input : UpdateProgramInput.t)
    (p : Program.t) : Program.t :=
  Program.mk (Program.id p)
    (provided (UpdateProgramInput.name input) (Program.name p))
    (provided (UpdateProgramInput.type input) (Program.type p))
    (provided (UpdateProgramInput.fee input) (Program.fee p))
    (provided (UpdateProgramInput.commission_rate input) (Program.commission_rate p))
    (provided (UpdateProgramInput.commission_type input) (Program.commission_type p))
    (provided (UpdateProgramInput.description input) (Program.description p))
    (provided (UpdateProgramInput.is_active input) (Program.is_active p))
    (Program.created_at p) updated_at.

Definition updateProgram (updated_at : Date) (input : UpdateProgramInput.t)
  : Handler Program.t :=
  result <- update_programs (fun p => Program.id p =? UpdateProgramInput.id input)
              (set_program_fields updated_at input) ;;
  match result with
  | [] => throw "Program not found"
  | program :: _ => ret program
  end.

Definition set_inactive (updated_at : Date) (p : Program.t) : Program.t :=
  Program.mk (Program.id p) (Program.name p) (Program.type p) (Program.fee p)
    (Program.commission_rate p) (Program.commission_type p)
    (Program.description p) false (Program.created_at p) updated_at.

Definition deleteProgram (updated_at : Date) (id : Z) : Handler unit :=
  result <- update_programs (fun p => Program.id p =? id) (set_inactive updated_at) ;;
  match result with
  | [] => throw "Program not found"
  | _ :: _ => ret tt
  end.



(** ** handlers/seed.ts: the programs of [seedPrograms] *)

Definition seed_programs
  : list (string * ProgramType * Q * Q * CommissionType) :=
  [
    ("Online Kids", online, 1500000%Q, 10%Q, percentage);
    ("Online Teen", online, 1800000%Q, 10%Q, percentage);
    ("Online TOEFL", online, 2500000%Q, 10%Q, percentage);
    ("Easy Peasy", online, 1200000%Q, 10%Q, percentage);
    ("Private Online", online, 3000000%Q, 10%Q, percentage);
    ("General English", online, 1600000%Q, 10%Q, percentage);
    ("Speaking Booster", online, 1400000%Q, 10%Q, percentage);
    ("Grammar Booster", online, 1300000%Q, 10%Q, percentage);
    ("Pare 2 Minggu", offline_pare, 2000000%Q, 7%Q, percentage);
    ("Pare 1 Bulan", offline_pare, 3500000%Q, 7%Q, percentage);
    ("Pare 2 Bulan", offline_pare, 6500000%Q, 7%Q, percentage);
    ("Pare 3 Bulan", offline_pare, 9000000%Q, 7%Q, percentage);
    ("Pare TOEFL", offline_pare, 4000000%Q, 7%Q, percentage);
    ("RPL (Rekognisi Pembelajaran Lampau)", offline_pare, 5000000%Q, 7%Q, percentage);
    ("Kapal Pesiar", offline_pare, 12000000%Q, 7%Q, percentage);
    ("English Trip", rombongan, 2500000%Q, 100000%Q, flat);
    ("Special English Day", rombongan, 500000%Q, 100000%Q, flat);
    ("Tutor Visit", rombongan, 1500000%Q, 100000%Q, flat);
    ("Cilukba (TK / Pre-school) - Malang", cabang, 800000%Q, 5%Q, percentage);
    ("Hompimpa (SD) - Malang", cabang, 900000%Q, 5%Q, percentage);
    ("Hip Hip Hurray (SMP) - Malang", cabang, 1000000%Q, 5%Q, percentage);
    ("Insight Out (SMA) - Malang", cabang, 1200000%Q, 5%Q, percentage);
    ("Cilukba (TK / Pre-school) - Sidoarjo", cabang, 800000%Q, 5%Q, percentage);
    ("Hompimpa (SD) - Sidoarjo", cabang, 900000%Q, 5%Q, percentage);
    ("Hip Hip Hurray (SMP) - Sidoarjo", cabang, 1000000%Q, 5%Q, percentage);
    ("Insight Out (SMA) - Sidoarjo", cabang, 1200000%Q, 5%Q, percentage);
    ("Cilukba (TK / Pre-school) - Nganjuk", cabang, 800000%Q, 5%Q, percentage);
    ("Hompimpa (SD) - Nganjuk", cabang, 900000%Q, 5%Q, percentage);
    ("Hip Hip Hurray (SMP) - Nganjuk", cabang, 1000000%Q, 5%Q, percentage);
    ("Insight Out (SMA) - Nganjuk", cabang, 1200000%Q, 5%Q, percentage)
  ].

(** [db.insert(table).values(rows)]: the rows take consecutive values of the
    sequence. *)
Fixpoint insert_programs (values : list (Z -> Program.t)) : Handler (list Program.t) :=
  match values with
  | [] => ret []
  | v :: values' =>
    program <- insert_program v ;;
    programs <- insert_programs values' ;;
    ret (program :: programs)
  end.

Definition seedPrograms (now : Date) : Handler (list Program.t) :=
  insert_programs
    (map (fun prog id =>
            let '(name, type, fee, commission_rate, commission_type) := prog in
            Program.mk id name type fee commission_rate commission_type
              (Some (name ++ " program offered by English Booster")) true now now)
         seed_programs).

(** ** The stores the handlers build *)

(** One call of a handler that writes. *)
Inductive step (hashPassword : string -> string) (db : DB) : DB -> Prop :=
| step_registerUser fuel clock random now input result :
    registerUser hashPassword fuel clock random now input db = Some result ->
    step hashPassword db (snd result)
| step_createAdminUser now :
    step hashPassword db (snd (createAdminUser now db))
| step_seedPrograms now :
    step hashPassword db (snd (seedPrograms now db))
| step_createProgram now input :
    step hashPassword db (snd (createProgram now input db))
| step_updateProgram updated_at input :
    step hashPassword db (snd (updateProgram updated_at input db))
| step_deleteProgram updated_at id :
    step hashPassword db (snd (deleteProgram updated_at id db))
| step_createRegistration now input :
    step hashPassword db (snd (createRegistration now input db))
| step_verifyPayment verified_at updated_at id :
    step hashPassword db (snd (verifyPayment verified_at updated_at id db))
| step_trackLinkClick now input :
    step hashPassword db (snd (trackLinkClick now input db))
| step_createPayoutRequest requested_at now affiliateId input :
    step hashPassword db (snd (createPayoutRequest requested_at now affiliateId input db))
| step_updatePayoutStatus updated_at processed_at input :
    step hashPassword db (snd (updatePayoutStatus updated_at processed_at input db)).

(** The stores reached from the empty one by calls of the handlers. *)
Inductive reachable (hashPassword : string -> string) : DB -> Prop :=
| reachable_empty : reachable hashPassword emptyDB
| reachable_step db db' :
    reachable hashPassword db -> step hashPassword db db' ->
    reachable hashPassword db'.

(** ** handlers/commission.ts: the rate of a program type *)

(** The value of the enum in the source. *)
Definition ProgramType_name (t : ProgramType) : string :=
  match t with
  | online => "online"
  | offline_pare => "offline_pare"
  | rombongan => "rombongan"
  | cabang => "cabang"
  end.

(** The properties every object literal inherits from [Object.prototype]:
    [commissionRates[key]] finds them too, as truthy values. *)
Definition Object_prototype_keys : list string :=
  ["constructor"; "hasOwnProperty"; "isPrototypeOf"; "propertyIsEnumerable";
   "toLocaleString"; "toString"; "valueOf"; "__proto__"; "__defineGetter__";
   "__defineSetter__"; "__lookupGetter__"; "__lookupSetter__"].

(** What [commissionRates[programType]] evaluates to when it is truthy. *)
Inductive RateConfig :=
| rate_config (rate : Q) (type : CommissionType)
| inherited_property (key : string).

Definition commissionRates (key : string) : option RateConfig :=
  if String.eqb key "online" then Some (rate_config 10 percentage)
  else if String.eqb key "offline_pare" then Some (rate_config 7 percentage)
  else if String.eqb key "rombongan" then Some (rate_config 100000 flat)
  else if String.eqb key "cabang" then Some (rate_config 5 percentage)
  else if existsb (String.eqb key) Object_prototype_keys
       then Some (inherited_property key)
  else None.

Definition getCommissionRateByProgramType (programType : string) : Handler RateConfig :=
  match commissionRates programType with
  | None => throw ("Unknown program type: " ++ programType)
  | Some rateConfig => ret rateConfig
  end.

(** * Specification-side definitions *)

(** The commission rule of the specification, before the clamp: a share of
    the fee for a percentage program, the rate itself for a flat one. *)
Definition commission_rule (program : Program.t) : Q :=
  match Program.commission_type program with
  | percentage => (Program.fee program * Program.commission_rate program / 100)%Q
  | flat => Program.commission_rate program
  end.

(** The sum of a list of amounts, zero for the empty list. *)
Definition Qsum (values : list Q) : Q := fold_right Qplus 0%Q values.

Definition resolved {A} (result : Outcome A * DB) : option A :=
  match fst result with
  | Resolved a => Some a
  | Rejected _ => None
  end.

Definition rejected {A} (result : Outcome A * DB) : option string :=
  match fst result with
  | Resolved _ => None
  | Rejected e => Some e
  end.

(** An existing user with role affiliate. *)
Definition affiliate_exists (affiliateId : Z) (db : DB) : Prop :=
  exists u, In u (usersTable db) /\ User.id u = affiliateId /\ User.role u = affiliate.

(** The sum of [commission_amount] over the affiliate's registrations with
    status [payment_verified]. *)
Fixpoint verified_commission_of (affiliateId : Z) (rows : list Registration.t) : Q :=
  match rows with
  | [] => 0%Q
  | r :: rows' =>
    match Z.eq_dec (Registration.affiliate_id r) affiliateId, Registration.status r with
    | left _, payment_verified =>
      (Registration.commission_amount r + verified_commission_of affiliateId rows')%Q
    | _, _ => verified_commission_of affiliateId rows'
    end
  end.

(** The sum of [amount] over the affiliate's payout requests of any status. *)
Fixpoint payouts_of (affiliateId : Z) (rows : list PayoutRequest.t) : Q :=
  match rows with
  | [] => 0%Q
  | p :: rows' =>
    if Z.eq_dec (PayoutRequest.affiliate_id p) affiliateId
    then (PayoutRequest.amount p + payouts_of affiliateId rows')%Q
    else payouts_of affiliateId rows'
  end.

Definition available_balance (affiliateId : Z) (db : DB) : Q :=
  (verified_commission_of affiliateId (registrationsTable db)
   - payouts_of affiliateId (payoutRequestsTable db))%Q.


(** The stored registration, program and payout request of an id. *)
Definition registration_with_id (id : Z) (db : DB) : option Registration.t :=
  find (fun r => Registration.id r =? id) (registrationsTable db).


Definition payout_with_id (id : Z) (db : DB) : option PayoutRequest.t :=
  find (fun p => PayoutRequest.id p =? id) (payoutRequestsTable db).

(** One call of [updatePayoutStatus]: its two clock readings and its input. *)
Module UpdateCall.
Record t := mk {
  updated_at : Date;
  processed_at : Date;
  input : UpdatePayoutStatusInput.t
}.
End UpdateCall.

(** The store after a sequence of [updatePayoutStatus] calls, first call first. *)
Fixpoint run_updatePayoutStatus (calls : list UpdateCall.t) (db : DB) : DB :=
  match calls with
  | [] => db
  | call :: calls' =>
    run_updatePayoutStatus calls'
      (snd (updatePayoutStatus (UpdateCall.updated_at call)
              (UpdateCall.processed_at call) (UpdateCall.input call) db))
  end.

Definition marks_paid (id : Z) (call : UpdateCall.t) : bool :=
  (UpdatePayoutStatusInput.id (UpdateCall.input call) =? id)
  && PayoutStatus_eqb (UpdatePayoutStatusInput.status (UpdateCall.input call)) paid.

(** The clock reading of the last call of the sequence that sets the payout
    request [id] to paid, if there is one. *)
Fixpoint last_paid (id : Z) (calls : list UpdateCall.t) : option Date :=
  match calls with
  | [] => None
  | call :: calls' =>
    match last_paid id calls' with
    | Some t => Some t
    | None => if marks_paid id call then Some (UpdateCall.processed_at call) else None
    end
  end.

(** The two ways a login fails: no user has the email, or the first user
    with the email has another password hash. *)
Definition unknown_email (input : LoginInput.t) (db : DB) : Prop :=
  forall u, In u (usersTable db) -> User.email u <> LoginInput.email input.

Definition wrong_password (hashPassword : string -> string) (input : LoginInput.t)
    (db : DB) : Prop :=
  exists u, find (fun u => String.eqb (User.email u) (LoginInput.email input))
                 (usersTable db) = Some u
    /\ hashPassword (LoginInput.password input) <> User.password_hash u.


(** Upper-case letters and digits. *)
Definition is_upper_alnum (c : ascii) : bool :=
  let n := N_of_ascii c in
  ((48 <=? n)%N && (n <=? 57)%N) || ((65 <=? n)%N && (n <=? 90)%N).

Fixpoint all_upper_alnum (s : string) : bool :=
  match s with
  | EmptyString => true
  | String c s' => is_upper_alnum c && all_upper_alnum s'
  end.

(** A character whose upper case is an upper-case letter or a digit. *)
Definition upper_is_alnum (c : ascii) : bool := is_upper_alnum (toUpperCase_char c).

Fixpoint all_chars (P : ascii -> bool) (s : string) : bool :=
  match s with
  | EmptyString => true
  | String c s' => P c && all_chars P s'
  end.

(** The prefix followed by upper-case letters or digits. *)
Definition code_shape (code : string) : Prop :=
  exists suffix, code = "AFF" ++ suffix /\ all_upper_alnum suffix = true.

(** The prefix followed by [n] upper-case letters or digits. *)
Definition code_format (n : nat) (code : string) : Prop :=
  exists suffix, code = "AFF" ++ suffix
    /\ String.length suffix = n /\ all_upper_alnum suffix = true.

(** Ids come from the serial sequences: no two rows of a table share an id,
    and no id is beyond the table's sequence. *)
Definition serial (ids : list Z) (seq : Z) : Prop :=
  NoDup ids /\ forall i, In i ids -> i <= seq.

Definition serial_ids (db : DB) : Prop :=
  serial (map User.id (usersTable db)) (users_id_seq db)
  /\ serial (map Program.id (programsTable db)) (programs_id_seq db)
  /\ serial (map Registration.id (registrationsTable db)) (registrations_id_seq db)
  /\ serial (map LinkClick.id (linkClicksTable db)) (link_clicks_id_seq db)
  /\ serial (map PayoutRequest.id (payoutRequestsTable db)) (payout_requests_id_seq db).

(** The status given by the last call of the sequence that addresses the
    payout request [id], if there is one. *)
Fixpoint last_status (id : Z) (calls : list UpdateCall.t) : option PayoutStatus :=
  match calls with
  | [] => None
  | call :: calls' =>
    match last_status id calls' with
    | Some s => Some s
    | None =>
      if UpdatePayoutStatusInput.id (UpdateCall.input call) =? id
      then Some (UpdatePayoutStatusInput.status (UpdateCall.input call))
      else None
    end
  end.

(** What the money handlers read of a registration. *)
Definition money_view (r : Registration.t) : Z * RegistrationStatus * Q :=
  (Registration.affiliate_id r, Registration.status r, Registration.commission_amount r).

(** A user has the email. *)
Definition email_taken (email : string) (db : DB) : Prop :=
  exists u, In u (usersTable db) /\ User.email u = email.

(** The affiliate codes of the users, in the order of the table. *)
Definition affiliate_codes (users : list User.t) : list string :=
  flat_map (fun u => match User.affiliate_code u with
                     | Some code => [code]
                     | None => []
                     end) users.

(** Users as the handlers create them: no two share an email or an affiliate
    code, affiliates carry a code and admins none. *)
Definition users_well_formed (db : DB) : Prop :=
  NoDup (map User.email (usersTable db))
  /\ NoDup (affiliate_codes (usersTable db))
  /\ (forall u, In u (usersTable db) ->
       (User.role u = admin <-> User.affiliate_code u = None)).

(** The rows a multi-row insert gives when the table's sequence stands at
    [seq]: the values in their order, numbered from [seq + 1]. *)
Fixpoint numbered_from (seq : Z) (values : list (Z -> Program.t)) : list Program.t :=
  match values with
  | [] => []
  | v :: values' => v (seq + 1) :: numbered_from (seq + 1) values'
  end.

(** The columns [seedPrograms] gives for each program. *)
Definition seed_columns (p : Program.t) : string * ProgramType * Q * Q * CommissionType :=
  (Program.name p, Program.type p, Program.fee p, Program.commission_rate p,
   Program.commission_type p).

(** * Example stores *)

Definition user_affiliate_1 : User.t :=
  User.mk 1 "affiliate@test.com" "hashed" "Test Affiliate" affiliate (Some "AFF123") 0%N 0%N.

Definition user_admin_2 : User.t :=
  User.mk 2 "admin@test.com" "hashed" "Test Admin" admin None 0%N 0%N.

(** A flat program whose stored rate is negative, as in the commission
    handler's own edge-case test. *)
Definition program_negative_flat : Program.t :=
  Program.mk 1 "Edge Case Course" rombongan 1000000%Q (-50000)%Q flat
    (Some "Test program") true 0%N 0%N.


Definition db_two_users : DB :=
  mkDB [user_affiliate_1; user_admin_2] [] [] [] [] 2 0 0 0 0.

Definition db_negative_flat : DB :=
  mkDB [user_affiliate_1; user_admin_2] [program_negative_flat] [] [] [] 2 1 0 0 0.

Definition input_student (code : string) (program_id : Z) : CreateRegistrationInput.t :=
  CreateRegistrationInput.mk code program_id "Test Student" "student@test.com" "08123456789".

(** One verified registration with commission 100,000 and one prior payout of
    60,000 for the same affiliate. *)
Definition registration_verified_100000 : Registration.t :=
  Registration.mk 1 1 1 "Test Student" "student@test.com" "08123456789"
    payment_verified 100000%Q 0%N (Some 0%N) 0%N 0%N.

Definition payout_60000 : PayoutRequest.t :=
  PayoutRequest.mk 1 1 60000%Q "Test Bank" "1234567890" "Test User"
    payout_pending 0%N None 0%N 0%N.

Definition db_balance_40000 : DB :=
  mkDB [user_affiliate_1; user_admin_2] [] [registration_verified_100000] []
       [payout_60000] 2 0 1 0 1.

Definition input_payout (amount : Q) : CreatePayoutRequestInput.t :=
  CreatePayoutRequestInput.mk amount "Test Bank" "1234567890" "Test User".

(** A pending payout request and three status updates of it: paid, back to
    pending, paid again. *)
Definition db_one_payout : DB :=
  mkDB [user_affiliate_1] [] [] [] [payout_60000] 1 0 0 0 1.

Definition call_paid_11 : UpdateCall.t :=
  UpdateCall.mk 10%N 11%N (UpdatePayoutStatusInput.mk 1 paid).

Definition call_pending_21 : UpdateCall.t :=
  UpdateCall.mk 20%N 21%N (UpdatePayoutStatusInput.mk 1 payout_pending).

Definition call_paid_31 : UpdateCall.t :=
  UpdateCall.mk 30%N 31%N (UpdatePayoutStatusInput.mk 1 paid).

(** A stand-in for the hash of the examples. *)
Definition toy_hash (password : string) : string := "sha256:" ++ password.

Definition user_login : User.t :=
  User.mk 1 "test@example.com" (toy_hash "password123") "Test User" affiliate
    (Some "AFF123") 0%N 0%N.

Definition db_login : DB := mkDB [user_login] [] [] [] [] 1 0 0 0 0.

(** A random source that only draws 0.abcdef, and a store in which the code
    made from that draw is taken. *)
Definition random_abcdef (attempt : nat) : list N := [10; 11; 12; 13; 14; 15]%N.

Definition user_abcde : User.t :=
  User.mk 1 "first@example.com" "hashed" "First Affiliate" affiliate
    (Some "AFFABCDE") 0%N 0%N.

Definition db_abcde_taken : DB := mkDB [user_abcde] [] [] [] [] 1 0 0 0 0.

(** A store in which the code of the timestamp 1700000123456 and the draw
    0.abcdef is taken, and a random source that draws 0.abcdef eleven times
    and 0.zzzzz afterwards. *)
Definition user_timestamp_code : User.t :=
  User.mk 1 "first@example.com" "hashed" "First Affiliate" affiliate
    (Some "AFFLOYW6IBKABCDE") 0%N 0%N.

Definition db_timestamp_code_taken : DB :=
  mkDB [user_timestamp_code] [] [] [] [] 1 0 0 0 0.

Definition clock_fixed (iteration : nat) : Date := 1700000123456%N.

Definition random_abcdef_then_z (iteration : nat) : list N :=
  if (iteration <? 11)%nat then [10; 11; 12; 13; 14; 15]%N
  else [35; 35; 35; 35; 35]%N.

(** A store built by handler calls alone: an affiliate (id 1) and an admin
    (id 2) register, a program is created, a student registers through the
    affiliate's code and the payment is verified, the link is clicked once and
    the affiliate requests a payout. *)
Definition register (input : CreateUserInput.t) (db : DB) : Outcome User.t * DB :=
  match registerUser toy_hash 1 clock_fixed random_abcdef 100%N input db with
  | Some result => result
  | None => (Rejected "no free code yet", db)
  end.

Definition db_built_users : DB :=
  snd (register (CreateUserInput.mk "admin@test.com" "adminpass123" "Jane Admin" admin)
    (snd (register (CreateUserInput.mk "affiliate@test.com" "password123"
                      "John Affiliate" affiliate)
            emptyDB))).

Definition db_built : DB :=
  snd (createPayoutRequest 700%N 701%N 1 (input_payout 60000%Q)
    (snd (trackLinkClick 600%N
            (TrackLinkClickInput.mk "AFFLOYW6IBKABCDE" "192.168.1.1" None)
      (snd (verifyPayment 500%N 501%N 1
        (snd (createRegistration 400%N (input_student "AFFLOYW6IBKABCDE" 1)
          (snd (createProgram 300%N
                  (CreateProgramInput.mk "Online Kids" online 1000000%Q 10%Q
                                         percentage None true)
                  db_built_users))))))))).

(** A store with a verified registration (commission 100,000), a pending one
    (commission 50,000) and a payout request of 60,000, all of affiliate 1. *)
Definition registration_pending_50000 : Registration.t :=
  Registration.mk 2 1 1 "Second Student" "second@test.com" "08123456780"
    pending 50000%Q 0%N None 0%N 0%N.

Definition db_two_registrations : DB :=
  mkDB [user_affiliate_1; user_admin_2] []
       [registration_verified_100000; registration_pending_50000] []
       [payout_60000] 2 0 2 0 1.

(** A stand-in for a hash of 64 hexadecimal digits. *)
Definition hash_of_zeros (password : string) : string :=
  "0000000000000000000000000000000000000000000000000000000000000000".

Definition input_new_affiliate : CreateUserInput.t :=
  CreateUserInput.mk "affiliate@test.com" "password123" "John Affiliate" affiliate.

Definition user_registered : User.t :=
  User.mk 1 "affiliate@test.com" (toy_hash "password123") "John Affiliate" affiliate
    (Some "AFFLOYW6IBKABCDE") 100%N 100%N.

(** * Commission *)

Lemma Math_max_0_nonneg (c : Q) : (0 <= c)%Q -> Math_max 0%Q c = c.
Proof.
  intros H. unfold Math_max.
  destruct (Qle_bool 0 c) eqn:E; [reflexivity|].
  apply Qle_bool_iff in H. congruence.
Qed.



Lemma calculateCommission_unfold (program : Program.t) :
  calculateCommission program = Math_max 0%Q (commission_rule program).
Proof.
  unfold calculateCommission, commission_rule.
  destruct (Program.commission_type program); reflexivity.
Qed.

Lemma commissionAmount_unfold (program : Program.t) :
  commissionAmount program = commission_rule program.
Proof.
  unfold commissionAmount, commission_rule.
  destruct (Program.commission_type program); reflexivity.
Qed.


Example calculateCommission_values :
  (calculateCommission
     (Program.mk 1 "Online English Course" online 1000000 10 percentage None true 0%N 0%N)
   == 100000
   /\ calculateCommission
        (Program.mk 5 "Premium Course" online 1000000 12.5 percentage None true 0%N 0%N)
      == 125000
   /\ calculateCommission
        (Program.mk 2 "Group Program" rombongan 5000000 100000 flat None true 0%N 0%N)
      == 100000
   /\ calculateCommission program_negative_flat == 0)%Q.
Proof. repeat split. Qed.

(** The commission stored by [createRegistration] is the one of
    [calculateCommission] whenever the rule gives a non-negative value. *)
Lemma commissionAmount_agrees_when_nonneg (program : Program.t) :
  (0 <= commission_rule program)%Q ->
  commissionAmount program = calculateCommission program.
Proof.
  intros H.
  now rewrite commissionAmount_unfold, calculateCommission_unfold, Math_max_0_nonneg.
Qed.


(** * Payout authorization *)

Lemma fold_left_Qplus (values : list Q) (v : Q) :
  (fold_left Qplus values v == v + Qsum values)%Q.
Proof.
  revert v. induction values as [|w values IH]; intros v; simpl.
  - now rewrite Qplus_0_r.
  - rewrite IH. now rewrite Qplus_assoc.
Qed.

Lemma parse_or_zero_sql_sum (values : list Q) :
  (parse_or_zero (sql_sum values) == Qsum values)%Q.
Proof.
  destruct values as [|v values]; simpl.
  - reflexivity.
  - apply fold_left_Qplus.
Qed.

Lemma Qltb_lt (a b : Q) : Qltb a b = true <-> (a < b)%Q.
Proof.
  unfold Qltb. rewrite negb_true_iff. split; intros H.
  - apply Qnot_le_lt. intros Hle. apply Qle_bool_iff in Hle. congruence.
  - destruct (Qle_bool b a) eqn:E; [|reflexivity].
    apply Qle_bool_iff in E. exfalso. exact (Qlt_not_le _ _ H E).
Qed.

Lemma Qltb_ge (a b : Q) : Qltb a b = false <-> (b <= a)%Q.
Proof.
  unfold Qltb. rewrite negb_false_iff. apply Qle_bool_iff.
Qed.

Lemma totalVerifiedCommission_sum (affiliateId : Z) (db : DB) :
  (totalVerifiedCommission affiliateId db
   == verified_commission_of affiliateId (registrationsTable db))%Q.
Proof.
  unfold totalVerifiedCommission. rewrite parse_or_zero_sql_sum.
  induction (registrationsTable db) as [|r rows IH]; simpl; [reflexivity|].
  unfold registration_of at 1.
  destruct (Z.eq_dec (Registration.affiliate_id r) affiliateId) as [E|E].
  - apply Z.eqb_eq in E. rewrite E. simpl.
    destruct (Registration.status r); simpl; [exact IH|].
    now rewrite IH.
  - apply Z.eqb_neq in E. rewrite E. simpl. exact IH.
Qed.

Lemma totalPayoutRequests_sum (affiliateId : Z) (db : DB) :
  (totalPayoutRequests affiliateId db
   == payouts_of affiliateId (payoutRequestsTable db))%Q.
Proof.
  unfold totalPayoutRequests. rewrite parse_or_zero_sql_sum.
  induction (payoutRequestsTable db) as [|p rows IH]; simpl; [reflexivity|].
  destruct (Z.eq_dec (PayoutRequest.affiliate_id p) affiliateId) as [E|E].
  - apply Z.eqb_eq in E. rewrite E. simpl. now rewrite IH.
  - apply Z.eqb_neq in E. rewrite E. exact IH.
Qed.

Lemma affiliate_exists_filter (affiliateId : Z) (db : DB) :
  affiliate_exists affiliateId db <->
  filter (is_affiliate_with_id affiliateId) (usersTable db) <> [].
Proof.
  unfold affiliate_exists. split.
  - intros (u & Hin & Hid & Hrole) Hnil.
    assert (Hu : In u (filter (is_affiliate_with_id affiliateId) (usersTable db))).
    { apply filter_In. split; [exact Hin|].
      unfold is_affiliate_with_id. rewrite Hid, Hrole, Z.eqb_refl. reflexivity. }
    rewrite Hnil in Hu. exact Hu.
  - intros Hne.
    destruct (filter (is_affiliate_with_id affiliateId) (usersTable db))
      as [|u rest] eqn:E; [congruence|].
    assert (Hu : In u (filter (is_affiliate_with_id affiliateId) (usersTable db)))
      by (rewrite E; now left).
    apply filter_In in Hu. destruct Hu as [Hin Hc].
    unfold is_affiliate_with_id in Hc. apply andb_true_iff in Hc.
    destruct Hc as [Hid Hrole]. apply Z.eqb_eq in Hid.
    exists u. repeat split; try assumption.
    destruct (User.role u); [reflexivity|discriminate].
Qed.



(** With 100,000 verified and 60,000 already requested, 50,000 is rejected and
    exactly 40,000 is accepted. *)
Example createPayoutRequest_50000_rejected :
  createPayoutRequest 7%N 8%N 1 (input_payout 50000%Q) db_balance_40000
  = (Rejected "Insufficient verified commission balance", db_balance_40000).
Proof. reflexivity. Qed.

Example createPayoutRequest_40000_accepted :
  resolved (createPayoutRequest 7%N 8%N 1 (input_payout 40000%Q) db_balance_40000)
  = Some (PayoutRequest.mk 2 1 40000%Q "Test Bank" "1234567890" "Test User"
            payout_pending 7%N None 8%N 8%N).
Proof. reflexivity. Qed.

(** * Updates of one row *)

Section UpdateRows.
Context {A : Type} (c : A -> bool) (f : A -> A).


Lemma returning_head (rows : list A) (r : A) :
  find c rows = Some r -> exists rest, returning c f rows = f r :: rest.
Proof.
  unfold returning. induction rows as [|r0 rows IH]; simpl; [discriminate|].
  destruct (c r0).
  - intros [= ->]. now eexists.
  - exact IH.
Qed.

Lemma update_rows_none (rows : list A) :
  find c rows = None -> update_rows c f rows = rows.
Proof.
  unfold update_rows. induction rows as [|r rows IH]; simpl; [reflexivity|].
  destruct (c r); [discriminate|]. intros H. now rewrite IH.
Qed.

Lemma update_rows_find (rows : list A) (r : A) :
  (forall x, c (f x) = c x) ->
  find c rows = Some r -> find c (update_rows c f rows) = Some (f r).
Proof.
  intros Hc. unfold update_rows.
  induction rows as [|r0 rows IH]; simpl; [discriminate|].
  destruct (c r0) eqn:E; simpl.
  - intros [= ->]. now rewrite Hc, E.
  - rewrite E. exact IH.
Qed.

End UpdateRows.

(** * Registration lifecycle *)




Lemma verifyPayment_table (verified_at updated_at : Date) (id : Z) (db : DB) :
  registrationsTable (snd (verifyPayment verified_at updated_at id db))
  = update_rows (fun r => Registration.id r =? id)
      (set_payment_verified verified_at updated_at) (registrationsTable db).
Proof.
  unfold verifyPayment, bind, update_registrations.
  destruct (returning _ _ (registrationsTable db)); reflexivity.
Qed.


Example verifyPayment_twice :
  option_map Registration.payment_verified_at
    (resolved (verifyPayment 20%N 21%N 1
                 (snd (verifyPayment 10%N 11%N 1 db_balance_40000))))
  = Some (Some 20%N)
  /\ verifyPayment 10%N 11%N 99999 db_balance_40000
     = (Rejected "Registration not found", db_balance_40000).
Proof. split; reflexivity. Qed.





Example createRegistration_unknown_code :
  createRegistration 5%N (input_student "INVALID" 1) db_negative_flat
  = (Rejected "Affiliate not found", db_negative_flat).
Proof. reflexivity. Qed.

Example createRegistration_inactive_program :
  createRegistration 5%N (input_student "AFF123" 1)
    (snd (deleteProgram 4%N 1 db_negative_flat))
  = (Rejected "Program not found or inactive", snd (deleteProgram 4%N 1 db_negative_flat)).
Proof. reflexivity. Qed.

Example createRegistration_unknown_program :
  createRegistration 5%N (input_student "AFF123" 99999) db_negative_flat
  = (Rejected "Program not found or inactive", db_negative_flat).
Proof. reflexivity. Qed.

(** * Payout status updates *)

Lemma update_rows_find_other {A} (c c' : A -> bool) (f : A -> A) (rows : list A) :
  (forall x, c x = true -> c' x = false) ->
  (forall x, c' (f x) = c' x) ->
  find c' (update_rows c f rows) = find c' rows.
Proof.
  intros Hdisj Hkeep. unfold update_rows.
  induction rows as [|r rows IH]; simpl; [reflexivity|].
  destruct (c r) eqn:E.
  - rewrite Hkeep, (Hdisj r E). exact IH.
  - destruct (c' r); [reflexivity|exact IH].
Qed.

(** One call: the payout request of the call's id takes the new status and,
    for [paid], the second clock reading; every other one is left alone. *)
Lemma updatePayoutStatus_step (updated_at processed_at : Date)
    (input : UpdatePayoutStatusInput.t) (db : DB) (id : Z) (p : PayoutRequest.t) :
  payout_with_id id db = Some p ->
  payout_with_id id (snd (updatePayoutStatus updated_at processed_at input db))
  = Some (if UpdatePayoutStatusInput.id input =? id
          then set_payout_status (UpdatePayoutStatusInput.status input)
                 updated_at processed_at p
          else p).
Proof.
  unfold payout_with_id. intros Hfind.
  unfold updatePayoutStatus, bind, query.
  destruct (filter (fun p0 => PayoutRequest.id p0 =? UpdatePayoutStatusInput.id input)
              (payoutRequestsTable db)) as [|q qs] eqn:Hex.
  - simpl. destruct (UpdatePayoutStatusInput.id input =? id) eqn:E; [|exact Hfind].
    exfalso. apply Z.eqb_eq in E. subst id.
    apply find_some in Hfind.
    assert (Hin : In p (filter (fun p0 => PayoutRequest.id p0
                                          =? UpdatePayoutStatusInput.id input)
                          (payoutRequestsTable db))) by now apply filter_In.
    rewrite Hex in Hin. exact Hin.
  - cbv beta iota. unfold update_payout_requests.
    assert (Hdb : forall o : Outcome PayoutRequest.t * DB,
      payoutRequestsTable (snd o)
      = update_rows (fun p0 => PayoutRequest.id p0 =? UpdatePayoutStatusInput.id input)
          (set_payout_status (UpdatePayoutStatusInput.status input)
             updated_at processed_at) (payoutRequestsTable db) ->
      find (fun p0 => PayoutRequest.id p0 =? id) (payoutRequestsTable (snd o))
      = Some (if UpdatePayoutStatusInput.id input =? id
              then set_payout_status (UpdatePayoutStatusInput.status input)
                     updated_at processed_at p
              else p)).
    { intros o ->.
      destruct (UpdatePayoutStatusInput.id input =? id) eqn:E.
      - apply Z.eqb_eq in E. subst id. now apply update_rows_find.
      - rewrite update_rows_find_other; [exact Hfind| |reflexivity].
        intros x Hx. apply Z.eqb_eq in Hx. rewrite Hx. exact E. }
    apply Hdb.
    destruct (returning _ _ (payoutRequestsTable db)); reflexivity.
Qed.

(** C6, as the code has it: in every sequence of [updatePayoutStatus] calls,
    [processed_at] of a payout request ends as the clock reading of the last
    call that set it to paid (every such call stamps it anew), or as it was
    when no call did; a call that sets the status back to pending leaves it
    alone, so once set it is never cleared. *)
Theorem processed_at_follows_last_paid (calls : list UpdateCall.t) (db : DB) (id : Z)
    (p : PayoutRequest.t) :
  payout_with_id id db = Some p ->
  exists p', payout_with_id id (run_updatePayoutStatus calls db) = Some p'
    /\ PayoutRequest.processed_at p'
       = match last_paid id calls with
         | Some t => Some t
         | None => PayoutRequest.processed_at p
         end
    /\ (PayoutRequest.processed_at p <> None -> PayoutRequest.processed_at p' <> None).
Proof.
  revert db p. induction calls as [|call calls IH]; intros db p Hfind; simpl.
  - exists p. repeat split; auto.
  - pose proof (updatePayoutStatus_step (UpdateCall.updated_at call)
                  (UpdateCall.processed_at call) (UpdateCall.input call) db id p Hfind)
      as Hstep.
    destruct (IH _ _ Hstep) as (p' & Hp' & Hlast & Hkeep).
    exists p'. split; [exact Hp'|].
    unfold marks_paid.
    destruct (UpdatePayoutStatusInput.id (UpdateCall.input call) =? id);
      destruct (UpdatePayoutStatusInput.status (UpdateCall.input call));
      simpl in *; destruct (last_paid id calls); split;
      try exact Hlast; try (intros _; rewrite Hlast; discriminate);
      try (intros H; apply Hkeep; first [exact H | discriminate]).
Qed.

Lemma processed_at_follows_last_paid_witness :
  payout_with_id 1 db_one_payout = Some payout_60000
  /\ exists p',
       payout_with_id 1
         (run_updatePayoutStatus [call_paid_11; call_pending_21; call_paid_31]
            db_one_payout) = Some p'
       /\ PayoutRequest.processed_at p'
          = match last_paid 1 [call_paid_11; call_pending_21; call_paid_31] with
            | Some t => Some t
            | None => PayoutRequest.processed_at payout_60000
            end
       /\ (PayoutRequest.processed_at payout_60000 <> None ->
           PayoutRequest.processed_at p' <> None).
Proof.
  split; [reflexivity|].
  apply (processed_at_follows_last_paid
           [call_paid_11; call_pending_21; call_paid_31] db_one_payout 1 payout_60000).
  reflexivity.
Defined.

(** C6 as stated fails: a payout request marked paid (stamp 11), set back to
    pending (stamp kept) and marked paid again ends with the stamp of the
    second marking, 31; so a stamp once set is not kept in every sequence of
    calls. *)
Lemma processed_at_restamped_counterexample :
  option_map PayoutRequest.processed_at
    (payout_with_id 1 (run_updatePayoutStatus [call_paid_11] db_one_payout))
  = Some (Some 11%N)
  /\ option_map PayoutRequest.processed_at
       (payout_with_id 1
          (run_updatePayoutStatus [call_paid_11; call_pending_21] db_one_payout))
     = Some (Some 11%N)
  /\ option_map PayoutRequest.processed_at
       (payout_with_id 1
          (run_updatePayoutStatus [call_paid_11; call_pending_21; call_paid_31]
             db_one_payout))
     = Some (Some 31%N)
  /\ ~ (forall (before after : list UpdateCall.t) (p : PayoutRequest.t) (t : Date),
          payout_with_id 1 (run_updatePayoutStatus before db_one_payout) = Some p ->
          PayoutRequest.processed_at p = Some t ->
          exists p', payout_with_id 1
                       (run_updatePayoutStatus (before ++ after) db_one_payout)
                     = Some p'
            /\ PayoutRequest.processed_at p' = Some t).
Proof.
  repeat split; try reflexivity.
  intros H.
  destruct (H [call_paid_11] [call_pending_21; call_paid_31]
              (set_payout_status paid 10%N 11%N payout_60000) 11%N
              eq_refl eq_refl) as (p' & Hp' & Ht).
  vm_compute in Hp'. injection Hp' as <-. discriminate Ht.
Qed.

(** * Statistics *)

Lemma filter_nil_when {A} (c : A -> bool) (rows : list A) :
  (forall x, In x rows -> c x = false) -> filter c rows = [].
Proof.
  intros H. induction rows as [|x rows IH]; simpl; [reflexivity|].
  rewrite (H x (or_introl eq_refl)). apply IH. intros y Hy. apply H. now right.
Qed.






Example getAffiliateStats_no_activity :
  getAffiliateStats 1 db_negative_flat
  = (Resolved (AffiliateStats.mk 0 0 0%Q 0%Q 0%Q), db_negative_flat).
Proof. reflexivity. Qed.

(** * Login *)

Section Login.
Variable hashPassword : string -> string.

Lemma loginUser_unknown_email (input : LoginInput.t) (db : DB) :
  unknown_email input db ->
  loginUser hashPassword input db = (Rejected "Invalid email or password", db).
Proof.
  intros Hunknown. unfold loginUser, bind, query.
  assert (Hnil : filter (fun u => String.eqb (User.email u) (LoginInput.email input))
                   (usersTable db) = []).
  { destruct (filter _ (usersTable db)) as [|u rest] eqn:E; [reflexivity|].
    assert (Hu : In u (filter (fun u => String.eqb (User.email u)
                                            (LoginInput.email input))
                         (usersTable db))) by (rewrite E; now left).
    apply filter_In in Hu. destruct Hu as [Hin Heq].
    apply String.eqb_eq in Heq. exfalso. exact (Hunknown u Hin Heq). }
  rewrite Hnil. reflexivity.
Qed.

Lemma find_filter_head {A} (c : A -> bool) (rows : list A) :
  firstn 1 (filter c rows) = match find c rows with Some r => [r] | None => [] end.
Proof.
  induction rows as [|r rows IH]; simpl; [reflexivity|].
  destruct (c r); [reflexivity|exact IH].
Qed.

Lemma loginUser_wrong_password (input : LoginInput.t) (db : DB) :
  wrong_password hashPassword input db ->
  loginUser hashPassword input db = (Rejected "Invalid email or password", db).
Proof.
  intros (u & Hfind & Hhash). unfold loginUser, bind, query.
  rewrite find_filter_head, Hfind. cbv beta iota.
  destruct (String.eqb (hashPassword (LoginInput.password input))
              (User.password_hash u)) eqn:E; [|reflexivity].
  apply String.eqb_eq in E. contradiction.
Qed.

(** C10: whichever way two logins fail (the email matches no user, or the
    first user with the email has another password hash), [loginUser]
    rejects both with the same message, "Invalid email or password", and
    the same store; it rejects with no other message, and it fails in no
    other case. *)
Theorem loginUser_failures_indistinguishable (input1 input2 : LoginInput.t) (db : DB) :
  (unknown_email input1 db \/ wrong_password hashPassword input1 db) ->
  (unknown_email input2 db \/ wrong_password hashPassword input2 db) ->
  loginUser hashPassword input1 db = (Rejected "Invalid email or password", db)
  /\ loginUser hashPassword input1 db = loginUser hashPassword input2 db
  /\ (forall input e, rejected (loginUser hashPassword input db) = Some e ->
      e = "Invalid email or password"
      /\ (unknown_email input db \/ wrong_password hashPassword input db)).
Proof.
  intros H1 H2.
  assert (Hfail : forall input,
            unknown_email input db \/ wrong_password hashPassword input db ->
            loginUser hashPassword input db
            = (Rejected "Invalid email or password", db)).
  { intros input [H|H];
      [now apply loginUser_unknown_email | now apply loginUser_wrong_password]. }
  split; [now apply Hfail|]. split; [now rewrite !Hfail|].
  intros input e. unfold rejected, loginUser, bind, query.
  rewrite find_filter_head.
  destruct (find (fun u => String.eqb (User.email u) (LoginInput.email input))
              (usersTable db)) as [u|] eqn:Hfind; cbv beta iota.
  - destruct (String.eqb (hashPassword (LoginInput.password input))
                (User.password_hash u)) eqn:E; simpl; [discriminate|].
    intros [= <-]. split; [reflexivity|]. right. exists u. split; [exact Hfind|].
    now apply String.eqb_neq.
  - simpl. intros [= <-]. split; [reflexivity|]. left.
    intros u Hin Hemail.
    apply (find_none _ _ Hfind) in Hin. apply String.eqb_neq in Hin. contradiction.
Qed.
End Login.

Lemma loginUser_failures_indistinguishable_witness :
  unknown_email (LoginInput.mk "nonexistent@example.com" "password123") db_login
  /\ wrong_password toy_hash (LoginInput.mk "test@example.com" "wrongpassword") db_login
  /\ loginUser toy_hash (LoginInput.mk "nonexistent@example.com" "password123") db_login
     = loginUser toy_hash (LoginInput.mk "test@example.com" "wrongpassword") db_login.
Proof.
  assert (H1 : unknown_email (LoginInput.mk "nonexistent@example.com" "password123")
                 db_login).
  { intros u [<-|[]]. discriminate. }
  assert (H2 : wrong_password toy_hash
                 (LoginInput.mk "test@example.com" "wrongpassword") db_login).
  { exists user_login. split; [reflexivity|discriminate]. }
  split; [exact H1|]. split; [exact H2|].
  exact (proj1 (proj2 (loginUser_failures_indistinguishable toy_hash _ _ db_login
                         (or_introl H1) (or_intror H2)))).
Defined.

Example loginUser_valid_credentials :
  loginUser toy_hash (LoginInput.mk "test@example.com" "password123") db_login
  = (Resolved user_login, db_login).
Proof. reflexivity. Qed.

(** * The stores the handlers build *)

Lemma insert_programs_tables (values : list (Z -> Program.t)) (db : DB) :
  usersTable (snd (insert_programs values db)) = usersTable db
  /\ registrationsTable (snd (insert_programs values db)) = registrationsTable db
  /\ linkClicksTable (snd (insert_programs values db)) = linkClicksTable db
  /\ payoutRequestsTable (snd (insert_programs values db)) = payoutRequestsTable db.
Proof.
  revert db. induction values as [|v values IH]; intros db; simpl.
  - repeat split.
  - unfold bind, insert_program.
    set (d := set_programsTable _ _ db).
    destruct (IH d) as (Hu & Hr & Hc & Hp).
    destruct (insert_programs values d) as [[ps|e] d'];
      simpl in *; repeat split; assumption.
Qed.







(** ** Serial ids *)

Lemma serial_next (ids : list Z) (seq : Z) :
  serial ids seq -> serial (ids ++ [seq + 1]) (seq + 1).
Proof.
  intros [Hnodup Hle]. split.
  - apply NoDup_app; [exact Hnodup|repeat constructor; intros []|].
    intros i Hin [<-|[]]. apply Hle in Hin. lia.
  - intros i Hin. apply in_app_or in Hin. destruct Hin as [Hin|[<-|[]]].
    + apply Hle in Hin. lia.
    + lia.
Qed.

Lemma update_rows_ids {A} (id : A -> Z) (c : A -> bool) (f : A -> A) (rows : list A) :
  (forall x, id (f x) = id x) -> map id (update_rows c f rows) = map id rows.
Proof.
  intros Hid. unfold update_rows. rewrite map_map. apply map_ext.
  intros x. destruct (c x); [apply Hid|reflexivity].
Qed.

Lemma insert_programs_serial (values : list (Z -> Program.t)) (db : DB) :
  (forall v id, In v values -> Program.id (v id) = id) ->
  serial_ids db -> serial_ids (snd (insert_programs values db)).
Proof.
  revert db. induction values as [|v values IH]; intros db Hid Hserial; simpl.
  - exact Hserial.
  - unfold bind, insert_program.
    set (d := set_programsTable _ _ db).
    assert (Hd : serial_ids d).
    { destruct Hserial as (Hu & Hp & Hr & Hc & Hq).
      unfold serial_ids, d. simpl. split; [|split; [|split; [|split]]];
        try assumption.
      rewrite map_app. simpl. rewrite (Hid v _ (or_introl eq_refl)).
      now apply serial_next. }
    assert (IHd := IH d (fun v' id Hin => Hid v' id (or_intror Hin)) Hd).
    destruct (insert_programs values d) as [[ps|e] d']; exact IHd.
Qed.

Ltac serial_table :=
  match goal with
  | H : serial ?ids ?seq |- serial ?ids ?seq => exact H
  | H : serial ?ids ?seq |- serial (map _ (_ ++ [_])) (?seq + 1) =>
    rewrite map_app; exact (serial_next _ _ H)
  | H : serial (map ?id ?rows) ?seq |- serial (map ?id (update_rows _ _ ?rows)) ?seq =>
    rewrite update_rows_ids by reflexivity; exact H
  end.

Ltac serial_store :=
  unfold serial_ids; simpl; split; [|split; [|split; [|split]]]; serial_table.

(** Every call keeps the ids of every table distinct. *)
Lemma step_serial_ids (hashPassword : string -> string) (db db' : DB) :
  step hashPassword db db' -> serial_ids db -> serial_ids db'.
Proof.
  intros Hstep Hserial. pose proof Hserial as (Hu & Hp & Hr & Hc & Hq).
  destruct Hstep.
  - unfold registerUser in H.
    destruct (firstn 1 _).
    + destruct (UserRole_eqb _ _).
      * destruct (unique_code_loop _ _ _ _ _); [|discriminate].
        injection H as <-. serial_store.
      * injection H as <-. serial_store.
    + injection H as <-. exact Hserial.
  - unfold createAdminUser, bind, query.
    destruct (filter _ (usersTable db)); [serial_store|exact Hserial].
  - unfold seedPrograms. apply insert_programs_serial; [|exact Hserial].
    intros v id Hin. apply in_map_iff in Hin.
    destruct Hin as ([[[[name type] fee] rate] ctype] & <- & _). reflexivity.
  - serial_store.
  - unfold updateProgram, bind, update_programs.
    destruct (returning _ _ _); serial_store.
  - unfold deleteProgram, bind, update_programs.
    destruct (returning _ _ _); serial_store.
  - unfold createRegistration, bind, query.
    destruct (filter _ (usersTable db)); [exact Hserial|].
    cbv beta iota. destruct (filter _ (programsTable db)); [exact Hserial|].
    serial_store.
  - unfold verifyPayment, bind, update_registrations.
    destruct (returning _ _ _); serial_store.
  - unfold trackLinkClick, bind, query.
    destruct (filter _ (usersTable db)); [exact Hserial|]. serial_store.
  - unfold createPayoutRequest, bind, query.
    destruct (filter _ (usersTable db)); [exact Hserial|].
    cbv beta iota. destruct (Qltb _ _); [exact Hserial|]. serial_store.
  - unfold updatePayoutStatus, bind, query.
    destruct (filter _ (payoutRequestsTable db)); [exact Hserial|].
    cbv beta iota. unfold update_payout_requests.
    destruct (returning _ _ _); serial_store.
Qed.

(** In every store the handlers build, an id names at most one row of a
    table. *)
Lemma reachable_serial_ids (hashPassword : string -> string) (db : DB) :
  reachable hashPassword db -> serial_ids db.
Proof.
  induction 1 as [|db db' _ IH Hstep].
  - unfold serial_ids, serial. simpl.
    repeat split; first [constructor | intros i []].
  - exact (step_serial_ids _ _ _ Hstep IH).
Qed.

Lemma find_unique {A} (id : A -> Z) (rows : list A) (r : A) :
  NoDup (map id rows) -> In r rows -> find (fun x => id x =? id r) rows = Some r.
Proof.
  induction rows as [|x rows IH]; simpl; intros Hnodup Hin; [contradiction|].
  inversion Hnodup as [|? ? Hnotin Hrest]; subst.
  destruct Hin as [->|Hin].
  - now rewrite Z.eqb_refl.
  - destruct (id x =? id r) eqn:E; [|now apply IH].
    exfalso. apply Z.eqb_eq in E. apply Hnotin. rewrite E. now apply in_map.
Qed.

(** In a store the handlers built, the registration and the payout request
    found by an id are the only rows of that id. *)
Lemma reachable_row_of_id (hashPassword : string -> string) (db : DB) :
  reachable hashPassword db ->
  (forall r, In r (registrationsTable db) ->
     registration_with_id (Registration.id r) db = Some r)
  /\ (forall p, In p (payoutRequestsTable db) ->
       payout_with_id (PayoutRequest.id p) db = Some p).
Proof.
  intros Hreach.
  destruct (reachable_serial_ids _ _ Hreach) as (_ & _ & [Hr _] & _ & [Hq _]).
  split.
  - intros r Hin. now apply (find_unique Registration.id).
  - intros p Hin. now apply (find_unique PayoutRequest.id).
Qed.

(** * Reads by affiliate id *)


Lemma step_register (input : CreateUserInput.t) (db : DB) :
  registerUser toy_hash 1 clock_fixed random_abcdef 100%N input db <> None ->
  step toy_hash db (snd (register input db)).
Proof.
  unfold register. intros Hsome.
  destruct (registerUser toy_hash 1 clock_fixed random_abcdef 100%N input db)
    as [result|] eqn:E; [|contradiction].
  eapply step_registerUser. exact E.
Qed.

Lemma db_built_reachable : reachable toy_hash db_built.
Proof.
  unfold db_built, db_built_users.
  eapply reachable_step; [|apply step_createPayoutRequest].
  eapply reachable_step; [|apply step_trackLinkClick].
  eapply reachable_step; [|apply step_verifyPayment].
  eapply reachable_step; [|apply step_createRegistration].
  eapply reachable_step; [|apply step_createProgram].
  eapply reachable_step; [|apply step_register; vm_compute; discriminate].
  eapply reachable_step; [|apply step_register; vm_compute; discriminate].
  apply reachable_empty.
Qed.

Example db_built_tables :
  map User.role (usersTable db_built) = [affiliate; admin]
  /\ map Registration.status (registrationsTable db_built) = [payment_verified]
  /\ map LinkClick.affiliate_id (linkClicksTable db_built) = [1]
  /\ map PayoutRequest.status (payoutRequestsTable db_built) = [payout_pending].
Proof. vm_compute. repeat split. Qed.


Example reads_of_missing_id :
  getPayoutRequestsByAffiliate 99999 db_built
  = (Rejected "Affiliate not found", db_built)
  /\ getRegistrationsByAffiliate 99999 db_built = (Resolved [], db_built)
  /\ getLinkClicksByAffiliate 99999 db_built = (Resolved [], db_built)
  /\ option_map (map PayoutRequest.amount)
       (resolved (getPayoutRequestsByAffiliate 1 db_built)) = Some [60000%Q].
Proof. vm_compute. repeat split. Qed.

(** * Numbers as strings *)

Lemma char_digit_digit_char (d : N) : (d < 36)%N -> char_digit (digit_char d) = d.
Proof.
  intros Hd. rewrite <- (N2Nat.id d).
  assert (Hk : (N.to_nat d < 36)%nat) by lia.
  generalize dependent (N.to_nat d). intros k Hk.
  do 36 (destruct k as [|k]; [reflexivity|]). lia.
Qed.

Lemma size_nat_bound (n : N) : (n < 2 ^ N.of_nat (N.size_nat n))%N.
Proof.
  destruct n as [|p]; [reflexivity|]. simpl.
  induction p as [p IH|p IH|]; simpl Pos.size_nat;
    rewrite ?Nat2N.inj_succ, ?N.pow_succ_r'; lia.
Qed.

Lemma toString_digits_S (fuel : nat) (radix n : N) (acc : string) :
  toString_digits (S fuel) radix n acc
  = if (n / radix =? 0)%N then String (digit_char (n mod radix)) acc
    else toString_digits fuel radix (n / radix) (String (digit_char (n mod radix)) acc).
Proof. reflexivity. Qed.

(** The fuel of [Number_toString] is enough: reading the digits back gives
    the number. *)
Lemma toString_digits_parseInt (radix : N) :
  (2 <= radix <= 36)%N ->
  forall fuel n acc,
    (n < 2 ^ N.of_nat fuel)%N ->
    parseInt_from radix 0 (toString_digits (S fuel) radix n acc)
    = parseInt_from radix n acc.
Proof.
  intros Hradix. induction fuel as [|fuel IH]; intros n acc Hn.
  - simpl in Hn. assert (n = 0%N) by lia. subst n. reflexivity.
  - rewrite toString_digits_S.
    assert (Hmod : (n mod radix < radix)%N) by (apply N.mod_lt; lia).
    assert (Hdigit : char_digit (digit_char (n mod radix)) = (n mod radix)%N)
      by (apply char_digit_digit_char; lia).
    assert (Hn' : n = (radix * (n / radix) + n mod radix)%N)
      by (apply N.div_mod; lia).
    destruct (n / radix =? 0)%N eqn:E.
    + apply N.eqb_eq in E. cbn [parseInt_from]. rewrite Hdigit.
      f_equal. lia.
    + rewrite IH.
      * cbn [parseInt_from]. rewrite Hdigit. f_equal. lia.
      * rewrite Nat2N.inj_succ, N.pow_succ_r' in Hn.
        apply N.Div0.div_lt_upper_bound.
        assert (2 * 2 ^ N.of_nat fuel <= radix * 2 ^ N.of_nat fuel)%N
          by (apply N.mul_le_mono_r; lia).
        lia.
Qed.

Lemma parseInt_Number_toString (radix n : N) :
  (2 <= radix <= 36)%N -> parseInt (Number_toString radix n) radix = n.
Proof.
  intros Hradix. unfold parseInt, Number_toString.
  rewrite toString_digits_parseInt; [reflexivity|exact Hradix|apply size_nat_bound].
Qed.

(** * Affiliate codes *)

Lemma digit_char_nat (k : nat) :
  (k < 36)%nat ->
  upper_is_alnum (digit_char (N.of_nat k)) = true
  /\ (k < 10 -> is_upper_alnum (digit_char (N.of_nat k)) = true)%nat.
Proof.
  intros Hk.
  do 36 (destruct k as [|k]; [split; [reflexivity | intros H; first [reflexivity | lia]]|]).
  lia.
Qed.

Lemma digit_char_36 (d : N) : upper_is_alnum (digit_char (d mod 36)) = true.
Proof.
  assert (H : (d mod 36 < 36)%N) by (apply N.mod_lt; discriminate).
  rewrite <- (N2Nat.id (d mod 36)). apply digit_char_nat. lia.
Qed.

Lemma digit_char_10 (d : N) : is_upper_alnum (digit_char (d mod 10)) = true.
Proof.
  assert (H : (d mod 10 < 10)%N) by (apply N.mod_lt; discriminate).
  rewrite <- (N2Nat.id (d mod 10)). apply digit_char_nat; lia.
Qed.

Lemma toString_digits_chars (P : ascii -> bool) (radix : N) :
  (forall d, P (digit_char (d mod radix)) = true) ->
  forall fuel n acc,
    all_chars P acc = true -> all_chars P (toString_digits fuel radix n acc) = true.
Proof.
  intros Hdigit. induction fuel as [|fuel IH]; intros n acc Hacc; simpl.
  - exact Hacc.
  - assert (Hacc' : all_chars P (String (digit_char (n mod radix)) acc) = true)
      by (simpl; now rewrite Hdigit).
    destruct (n / radix =? 0)%N; [exact Hacc'|]. now apply IH.
Qed.

Lemma Number_toString_36_chars (n : N) :
  all_chars upper_is_alnum (Number_toString 36 n) = true.
Proof.
  unfold Number_toString. apply toString_digits_chars; [|reflexivity].
  apply digit_char_36.
Qed.

Lemma Number_toString_10_chars (n : N) :
  all_chars is_upper_alnum (Number_toString 10 n) = true.
Proof.
  unfold Number_toString. apply toString_digits_chars; [|reflexivity].
  apply digit_char_10.
Qed.

Lemma all_chars_substring (P : ascii -> bool) (s : string) :
  all_chars P s = true -> forall n m, all_chars P (substring n m s) = true.
Proof.
  induction s as [|c s IH]; intros Hs n m.
  - destruct n, m; reflexivity.
  - simpl in Hs. apply andb_true_iff in Hs. destruct Hs as [Hc Hs].
    destruct n as [|n]; destruct m as [|m]; simpl; try reflexivity.
    + rewrite Hc. now apply IH.
    + now apply IH.
    + now apply IH.
Qed.

Lemma all_chars_append (P : ascii -> bool) (s t : string) :
  all_chars P (s ++ t) = all_chars P s && all_chars P t.
Proof.
  induction s as [|c s IH]; simpl; [reflexivity|].
  now rewrite IH, andb_assoc.
Qed.

Lemma all_chars_digits (digits : list N) :
  all_chars upper_is_alnum
    (string_of_list_ascii (map (fun d => digit_char (d mod 36)) digits)) = true.
Proof.
  induction digits as [|d digits IH]; simpl; [reflexivity|].
  now rewrite digit_char_36.
Qed.

Lemma toUpperCase_chars (s : string) :
  all_chars upper_is_alnum s = true -> all_upper_alnum (toUpperCase s) = true.
Proof.
  induction s as [|c s IH]; simpl; [reflexivity|].
  intros H. apply andb_true_iff in H. destruct H as [Hc Hs].
  unfold upper_is_alnum in Hc. rewrite Hc. now apply IH.
Qed.

Lemma all_upper_alnum_chars (s : string) :
  all_upper_alnum s = all_chars is_upper_alnum s.
Proof. induction s as [|c s IH]; simpl; [reflexivity|]. now rewrite IH. Qed.

Lemma toUpperCase_length (s : string) : String.length (toUpperCase s) = String.length s.
Proof. induction s as [|c s IH]; simpl; [reflexivity|]. now rewrite IH. Qed.

Lemma append_length (s t : string) :
  String.length (s ++ t) = (String.length s + String.length t)%nat.
Proof. induction s as [|c s IH]; simpl; [reflexivity|]. now rewrite IH. Qed.

Lemma substring_0_length (m : nat) (s : string) :
  String.length (substring 0 m s) = Nat.min m (String.length s).
Proof.
  revert s. induction m as [|m IH]; intros s.
  - destruct s; reflexivity.
  - destruct s as [|c s]; simpl; [reflexivity|]. now rewrite IH.
Qed.

Lemma substring_skip (n m : nat) (s : string) :
  String.length (substring n m s) = Nat.min m (String.length s - n).
Proof.
  revert s. induction n as [|n IH]; intros s.
  - rewrite Nat.sub_0_r. apply substring_0_length.
  - destruct s as [|c s]; simpl.
    + destruct m; reflexivity.
    + apply IH.
Qed.

Lemma string_of_list_ascii_length (l : list ascii) :
  String.length (string_of_list_ascii l) = List.length l.
Proof. induction l as [|c l IH]; simpl; [reflexivity|]. now rewrite IH. Qed.

(** The five characters kept of a draw: its first (at most) five digits. *)
Lemma random_suffix (digits : list N) :
  all_chars upper_is_alnum (substring_2_7 (random_toString36 digits)) = true
  /\ String.length (substring_2_7 (random_toString36 digits))
     = Nat.min 5 (List.length digits).
Proof.
  unfold substring_2_7, random_toString36.
  destruct digits as [|d digits]; [split; reflexivity|].
  change (substring 2 5 ("0." ++ string_of_list_ascii
                                   (map (fun d => digit_char (d mod 36)) (d :: digits))))
    with (substring 0 5 (string_of_list_ascii
                           (map (fun d => digit_char (d mod 36)) (d :: digits)))).
  split.
  - apply all_chars_substring. apply all_chars_digits.
  - rewrite substring_0_length, string_of_list_ascii_length, length_map. reflexivity.
Qed.

Lemma random_code_format (digits : list N) :
  code_format (Nat.min 5 (List.length digits)) (random_code digits).
Proof.
  destruct (random_suffix digits) as [Hchars Hlen].
  exists (toUpperCase (substring_2_7 (random_toString36 digits))).
  split; [reflexivity|]. split.
  - now rewrite toUpperCase_length.
  - now apply toUpperCase_chars.
Qed.

Lemma timestamp_code_format (now : Date) :
  code_format (Nat.min 6 (String.length (Number_toString 10 now))) (timestamp_code now).
Proof.
  exists (slice_last6 (Number_toString 10 now)).
  split; [reflexivity|]. unfold slice_last6. split.
  - rewrite substring_skip. lia.
  - rewrite all_upper_alnum_chars. apply all_chars_substring.
    apply Number_toString_10_chars.
Qed.

Lemma generateAffiliateCode_format (now : Date) (digits : list N) :
  code_format (String.length (Number_toString 36 now) + Nat.min 5 (List.length digits))
              (generateAffiliateCode now digits).
Proof.
  destruct (random_suffix digits) as [Hchars Hlen].
  unfold generateAffiliateCode.
  exists (toUpperCase (Number_toString 36 now
                       ++ substring_2_7 (random_toString36 digits))).
  split; [reflexivity|]. split.
  - rewrite toUpperCase_length, append_length, Hlen. reflexivity.
  - apply toUpperCase_chars. rewrite all_chars_append, Hchars.
    now rewrite Number_toString_36_chars.
Qed.

Section CodeLoops.
Variables (random : nat -> list N) (clock : nat -> Date) (now : Date) (db : DB).

Lemma generate_loop_result (remaining attempts : nat) :
  (exists k, (attempts <= k < attempts + remaining)%nat
     /\ generate_loop remaining attempts random now db = random_code (random k)
     /\ code_exists (random_code (random k)) db = false
     /\ forall j, (attempts <= j < k)%nat ->
          code_exists (random_code (random j)) db = true)
  \/ ((forall j, (attempts <= j < attempts + remaining)%nat ->
         code_exists (random_code (random j)) db = true)
      /\ generate_loop remaining attempts random now db = timestamp_code now).
Proof.
  revert attempts. induction remaining as [|remaining IH]; intros attempts; simpl.
  - right. split; [intros j Hj; lia|reflexivity].
  - destruct (code_exists (random_code (random attempts)) db) eqn:E.
    + destruct (IH (S attempts)) as [(k & Hk & Hcode & Hfree & Hbefore)|[Hall Hcode]].
      * left. exists k. split; [lia|]. split; [exact Hcode|]. split; [exact Hfree|].
        intros j Hj. destruct (Nat.eq_dec j attempts) as [->|Hne]; [exact E|].
        apply Hbefore. lia.
      * right. split; [|exact Hcode].
        intros j Hj. destruct (Nat.eq_dec j attempts) as [->|Hne]; [exact E|].
        apply Hall. lia.
    + left. exists attempts. split; [lia|]. split; [reflexivity|].
      split; [exact E|]. intros j Hj. lia.
Qed.

Lemma unique_code_loop_result (fuel iteration : nat) (code : string) :
  unique_code_loop fuel iteration clock random db = Some code ->
  exists k, (iteration <= k < iteration + fuel)%nat
    /\ code = generateAffiliateCode (clock k) (random k)
    /\ code_exists code db = false
    /\ forall j, (iteration <= j < k)%nat ->
         code_exists (generateAffiliateCode (clock j) (random j)) db = true.
Proof.
  revert iteration. induction fuel as [|fuel IH]; intros iteration; simpl;
    [discriminate|].
  destruct (code_exists (generateAffiliateCode (clock iteration) (random iteration)) db)
    eqn:E.
  - intros H. destruct (IH _ H) as (k & Hk & Hcode & Hfree & Hbefore).
    exists k. split; [lia|]. split; [exact Hcode|]. split; [exact Hfree|].
    intros j Hj. destruct (Nat.eq_dec j iteration) as [->|Hne]; [exact E|].
    apply Hbefore. lia.
  - intros [= <-]. exists iteration. split; [lia|]. split; [reflexivity|].
    split; [exact E|]. intros j Hj. lia.
Qed.

Lemma unique_code_loop_returns (fuel iteration k : nat) :
  (iteration <= k < iteration + fuel)%nat ->
  code_exists (generateAffiliateCode (clock k) (random k)) db = false ->
  exists code, unique_code_loop fuel iteration clock random db = Some code.
Proof.
  revert iteration. induction fuel as [|fuel IH]; intros iteration Hk Hfree; simpl;
    [lia|].
  destruct (code_exists (generateAffiliateCode (clock iteration) (random iteration)) db)
    eqn:E; [|now eexists].
  apply IH; [|exact Hfree].
  destruct (Nat.eq_dec k iteration) as [->|Hne]; [congruence|lia].
Qed.

Lemma unique_code_loop_runs_on (fuel iteration : nat) :
  (forall j, (iteration <= j < iteration + fuel)%nat ->
     code_exists (generateAffiliateCode (clock j) (random j)) db = true) ->
  unique_code_loop fuel iteration clock random db = None.
Proof.
  revert iteration. induction fuel as [|fuel IH]; intros iteration Hall; simpl;
    [reflexivity|].
  rewrite (Hall iteration) by lia. apply IH. intros j Hj. apply Hall. lia.
Qed.
End CodeLoops.

Lemma registerUser_code (hashPassword : string -> string) (fuel : nat)
    (clock : nat -> Date) (random : nat -> list N) (now : Date)
    (input : CreateUserInput.t) (db db' : DB) (u : User.t) :
  registerUser hashPassword fuel clock random now input db = Some (Resolved u, db') ->
  User.affiliate_code u
  = match CreateUserInput.role input with
    | affiliate => unique_code_loop fuel 0 clock random db
    | admin => None
    end
  /\ (CreateUserInput.role input = affiliate -> User.affiliate_code u <> None)
  /\ usersTable db' = (usersTable db ++ [u])%list.
Proof.
  unfold registerUser.
  destruct (firstn 1 _) as [|existing rest]; [|discriminate].
  destruct (CreateUserInput.role input); simpl.
  - destruct (unique_code_loop fuel 0 clock random db) as [code|]; [|discriminate].
    unfold insert_user. intros [= <- <-]. simpl.
    split; [reflexivity|]. split; [discriminate|reflexivity].
  - unfold insert_user. intros [= <- <-]. simpl.
    split; [reflexivity|]. split; [discriminate|reflexivity].
Qed.

Lemma code_format_shape (n : nat) (code : string) : code_format n code -> code_shape code.
Proof. intros (suffix & Heq & _ & Hchars). now exists suffix. Qed.

(** C7, as the code has it: every code of [generateUniqueAffiliateCode] and
    every code [registerUser] assigns is "AFF" followed by upper-case letters
    and digits, in the two handlers of different lengths.
    [generateUniqueAffiliateCode] returns the first of at most ten random
    candidates that no user has (a suffix of five characters when the draw has
    five base-36 digits), and after ten taken candidates a code made from the
    time, unchecked. [registerUser] builds its candidates from the time in
    base 36 followed by the five characters of the draw, retries as long as
    candidates are taken, with no bound and no fallback, and assigns the
    first candidate that no user has. *)
Theorem affiliate_code_generation (hashPassword : string -> string)
    (random : nat -> list N) (clock : nat -> Date) (now : Date) (db : DB) :
  (exists code, generateUniqueAffiliateCode random now db = (Resolved code, db)
     /\ code_shape code
     /\ ((exists k, (k < maxAttempts)%nat
            /\ code = random_code (random k)
            /\ code_exists code db = false
            /\ (forall j, (j < k)%nat -> code_exists (random_code (random j)) db = true)
            /\ ((5 <= List.length (random k))%nat -> code_format 5 code))
         \/ ((forall j, (j < maxAttempts)%nat ->
                code_exists (random_code (random j)) db = true)
             /\ code = timestamp_code now)))
  /\ (forall fuel created input u db',
        registerUser hashPassword fuel clock random created input db
        = Some (Resolved u, db') ->
        CreateUserInput.role input = affiliate ->
        exists k code, (k < fuel)%nat
          /\ User.affiliate_code u = Some code
          /\ code = generateAffiliateCode (clock k) (random k)
          /\ code_exists code db = false
          /\ (forall j, (j < k)%nat ->
                code_exists (generateAffiliateCode (clock j) (random j)) db = true)
          /\ code_shape code
          /\ ((5 <= List.length (random k))%nat ->
              code_format (String.length (Number_toString 36 (clock k)) + 5) code))
  /\ (forall fuel,
        (forall j, (j < fuel)%nat ->
           code_exists (generateAffiliateCode (clock j) (random j)) db = true) ->
        unique_code_loop fuel 0 clock random db = None)
  /\ (forall k fuel,
        code_exists (generateAffiliateCode (clock k) (random k)) db = false ->
        (k < fuel)%nat ->
        exists code, unique_code_loop fuel 0 clock random db = Some code).
Proof.
  split; [|split; [|split]].
  - eexists. split; [reflexivity|].
    destruct (generate_loop_result random now db maxAttempts 0)
      as [(k & Hk & Hcode & Hfree & Hbefore)|[Hall Hcode]].
    + rewrite Hcode. split; [exact (code_format_shape _ _ (random_code_format _))|].
      left. exists k. split; [lia|]. split; [reflexivity|].
      split; [exact Hfree|]. split.
      * intros j Hj. apply Hbefore. lia.
      * intros Hlen. pose proof (random_code_format (random k)) as Hformat.
        now rewrite Nat.min_l in Hformat.
    + rewrite Hcode. split; [exact (code_format_shape _ _ (timestamp_code_format _))|].
      right. split; [|reflexivity].
      intros j Hj. apply Hall. lia.
  - intros fuel created input u db' Hreg Hrole.
    destruct (registerUser_code _ _ _ _ _ _ _ _ _ Hreg) as (Hcode & _ & _).
    rewrite Hrole in Hcode.
    destruct (unique_code_loop fuel 0 clock random db) as [code|] eqn:Hloop.
    + destruct (unique_code_loop_result _ _ _ _ _ _ Hloop)
        as (k & Hk & Hgen & Hfree & Hbefore).
      pose proof (generateAffiliateCode_format (clock k) (random k)) as Hformat.
      exists k, code. split; [lia|]. split; [exact Hcode|]. split; [exact Hgen|].
      split; [exact Hfree|]. split; [|split].
      * intros j Hj. apply Hbefore. lia.
      * rewrite Hgen. exact (code_format_shape _ _ Hformat).
      * intros Hlen. rewrite Hgen. now rewrite Nat.min_l in Hformat.
    + exfalso. unfold registerUser in Hreg.
      destruct (firstn 1 _); [|discriminate].
      rewrite Hrole in Hreg. simpl in Hreg. rewrite Hloop in Hreg. discriminate.
  - intros fuel Hall. apply unique_code_loop_runs_on. intros j Hj. apply Hall. lia.
  - intros k fuel Hfree Hk. apply (unique_code_loop_returns random clock db fuel 0 k);
      [lia|exact Hfree].
Qed.

Lemma code_format_length (n : nat) (suffix : string) :
  code_format n ("AFF" ++ suffix) -> n = String.length suffix.
Proof.
  intros (s & Heq & Hlen & _). simpl in Heq. injection Heq as <-. now symmetry.
Qed.

(** C7 as stated fails: a code of [generateUniqueAffiliateCode] has a suffix
    of five characters where a code of [registerUser] has one of thirteen, so
    no one length fits both; and the loop of [registerUser] is still running
    after eleven taken candidates, where it returns the twelfth instead of
    falling back. *)
Lemma affiliate_code_format_counterexample :
  generateUniqueAffiliateCode random_abcdef 1700000123456%N emptyDB
  = (Resolved "AFFABCDE", emptyDB)
  /\ unique_code_loop 1 0 clock_fixed random_abcdef emptyDB = Some "AFFLOYW6IBKABCDE"
  /\ unique_code_loop 11 0 clock_fixed random_abcdef_then_z db_timestamp_code_taken
     = None
  /\ unique_code_loop 12 0 clock_fixed random_abcdef_then_z db_timestamp_code_taken
     = Some "AFFLOYW6IBKZZZZZ"
  /\ ~ (exists n,
          (forall random now db code,
             generateUniqueAffiliateCode random now db = (Resolved code, db) ->
             code_format n code)
          /\ (forall fuel clock random db code,
                unique_code_loop fuel 0 clock random db = Some code ->
                code_format n code)).
Proof.
  repeat split; try reflexivity.
  intros (n & Hunique & Hregister).
  assert (H5 := code_format_length n "ABCDE"
                  (Hunique random_abcdef 1700000123456%N emptyDB _ eq_refl)).
  assert (H13 := code_format_length n "LOYW6IBKABCDE"
                   (Hregister 1%nat clock_fixed random_abcdef emptyDB _ eq_refl)).
  simpl in H5, H13. congruence.
Qed.

(** After ten taken candidates the code is made from the clock. *)
Example generateUniqueAffiliateCode_fallback :
  generateUniqueAffiliateCode random_abcdef 1700000123456%N db_abcde_taken
  = (Resolved "AFF123456", db_abcde_taken).
Proof. reflexivity. Qed.

(** * Further properties of the handlers *)

(** ** Payout requests *)


(** The three ways [createPayoutRequest] ends. *)
Lemma createPayoutRequest_cases (requested_at now : Date) (affiliateId : Z)
    (input : CreatePayoutRequestInput.t) (db : DB) :
  (~ affiliate_exists affiliateId db
   /\ createPayoutRequest requested_at now affiliateId input db
      = (Rejected "Affiliate not found", db))
  \/ (affiliate_exists affiliateId db
      /\ (available_balance affiliateId db < CreatePayoutRequestInput.amount input)%Q
      /\ createPayoutRequest requested_at now affiliateId input db
         = (Rejected "Insufficient verified commission balance", db))
  \/ (affiliate_exists affiliateId db
      /\ (CreatePayoutRequestInput.amount input <= available_balance affiliateId db)%Q
      /\ createPayoutRequest requested_at now affiliateId input db
         = insert_payout_request (fun id =>
             PayoutRequest.mk id affiliateId
               (CreatePayoutRequestInput.amount input)
               (CreatePayoutRequestInput.bank_name input)
               (CreatePayoutRequestInput.account_number input)
               (CreatePayoutRequestInput.account_holder_name input)
               payout_pending requested_at None now now) db).
Proof.
  assert (Hbal :
    (totalVerifiedCommission affiliateId db - totalPayoutRequests affiliateId db
     == available_balance affiliateId db)%Q).
  { unfold available_balance.
    now rewrite totalVerifiedCommission_sum, totalPayoutRequests_sum. }
  unfold createPayoutRequest, bind, query.
  destruct (filter (is_affiliate_with_id affiliateId) (usersTable db))
    as [|u rest] eqn:Hfilter.
  - left. split; [|reflexivity]. rewrite affiliate_exists_filter, Hfilter. tauto.
  - assert (Hex : affiliate_exists affiliateId db).
    { apply affiliate_exists_filter. rewrite Hfilter. discriminate. }
    right. cbv beta iota.
    destruct (Qltb _ _) eqn:E.
    + left. apply Qltb_lt in E. rewrite Hbal in E. now repeat split.
    + right. apply Qltb_ge in E. rewrite Hbal in E. now repeat split.
Qed.


Example createPayoutRequest_by_admin :
  createPayoutRequest 7%N 8%N 2 (input_payout 1%Q) db_balance_40000
  = (Rejected "Affiliate not found", db_balance_40000)
  /\ createPayoutRequest 7%N 8%N 99999 (input_payout 1%Q) db_balance_40000
     = (Rejected "Affiliate not found", db_balance_40000).
Proof. split; reflexivity. Qed.



Lemma updatePayoutStatus_missing (updated_at processed_at : Date)
    (input : UpdatePayoutStatusInput.t) (db : DB) :
  payout_with_id (UpdatePayoutStatusInput.id input) db = None ->
  updatePayoutStatus updated_at processed_at input db
  = (Rejected "Payout request not found", db).
Proof.
  unfold payout_with_id. intros Hfind. unfold updatePayoutStatus, bind, query.
  rewrite filter_nil_when; [reflexivity|].
  intros x Hin. exact (find_none _ _ Hfind x Hin).
Qed.

Lemma updatePayoutStatus_found (updated_at processed_at : Date)
    (input : UpdatePayoutStatusInput.t) (db : DB) (q : PayoutRequest.t) :
  payout_with_id (UpdatePayoutStatusInput.id input) db = Some q ->
  updatePayoutStatus updated_at processed_at input db
  = (Resolved (set_payout_status (UpdatePayoutStatusInput.status input)
                 updated_at processed_at q),
     set_payoutRequestsTable
       (update_rows (fun p => PayoutRequest.id p =? UpdatePayoutStatusInput.id input)
          (set_payout_status (UpdatePayoutStatusInput.status input)
             updated_at processed_at) (payoutRequestsTable db))
       (payout_requests_id_seq db) db).
Proof.
  unfold payout_with_id. intros Hfind. unfold updatePayoutStatus, bind, query.
  destruct (filter _ (payoutRequestsTable db)) as [|x xs] eqn:Hfilter.
  - exfalso. pose proof (find_some _ _ Hfind) as [Hin Hc].
    assert (Hq : In q (filter (fun p => PayoutRequest.id p
                                        =? UpdatePayoutStatusInput.id input)
                         (payoutRequestsTable db))) by now apply filter_In.
    rewrite Hfilter in Hq. exact Hq.
  - cbv beta iota. unfold update_payout_requests.
    destruct (returning_head _ (set_payout_status (UpdatePayoutStatusInput.status input)
                                  updated_at processed_at) _ _ Hfind) as [rest Hret].
    rewrite Hret. reflexivity.
Qed.

Lemma payouts_of_update (affiliateId : Z) (c : PayoutRequest.t -> bool)
    (f : PayoutRequest.t -> PayoutRequest.t) (rows : list PayoutRequest.t) :
  (forall x, PayoutRequest.affiliate_id (f x) = PayoutRequest.affiliate_id x
             /\ PayoutRequest.amount (f x) = PayoutRequest.amount x) ->
  payouts_of affiliateId (update_rows c f rows) = payouts_of affiliateId rows.
Proof.
  intros Hf. induction rows as [|x rows IH]; simpl; [reflexivity|].
  destruct (c x); simpl; [destruct (Hf x) as [-> ->]|]; now rewrite IH.
Qed.


Lemma run_updatePayoutStatus_tables (calls : list UpdateCall.t) (db : DB) (a : Z) :
  payouts_of a (payoutRequestsTable (run_updatePayoutStatus calls db))
  = payouts_of a (payoutRequestsTable db)
  /\ registrationsTable (run_updatePayoutStatus calls db) = registrationsTable db
  /\ linkClicksTable (run_updatePayoutStatus calls db) = linkClicksTable db.
Proof.
  revert db. induction calls as [|call calls IH]; intros db; simpl; [now repeat split|].
  destruct (IH (snd (updatePayoutStatus (UpdateCall.updated_at call)
                       (UpdateCall.processed_at call) (UpdateCall.input call) db)))
    as (Hp & Hr & Hc).
  rewrite Hp, Hr, Hc.
  destruct (payout_with_id (UpdatePayoutStatusInput.id (UpdateCall.input call)) db)
    as [q|] eqn:Hfind.
  - rewrite (updatePayoutStatus_found _ _ _ _ _ Hfind). simpl.
    rewrite payouts_of_update; [now repeat split|]. intros x. now split.
  - rewrite (updatePayoutStatus_missing _ _ _ _ Hfind). now repeat split.
Qed.

(** X4: no sequence of [updatePayoutStatus] calls changes what an affiliate
    may still request or what the statistics show: a payout request counts
    against the balance whatever its status, so marking it paid consumes
    nothing more and setting it back to pending gives nothing back. *)
Theorem updatePayoutStatus_keeps_balances (calls : list UpdateCall.t) (db : DB)
    (affiliateId : Z) :
  available_balance affiliateId (run_updatePayoutStatus calls db)
  = available_balance affiliateId db
  /\ fst (getAffiliateStats affiliateId (run_updatePayoutStatus calls db))
     = fst (getAffiliateStats affiliateId db)
  /\ (forall requested_at now input,
        fst (createPayoutRequest requested_at now affiliateId input
               (run_updatePayoutStatus calls db)) = Rejected "Insufficient verified commission balance"
        <-> fst (createPayoutRequest requested_at now affiliateId input db)
            = Rejected "Insufficient verified commission balance").
Proof.
  destruct (run_updatePayoutStatus_tables calls db affiliateId) as (Hp & Hr & Hc).
  assert (Hbal : available_balance affiliateId (run_updatePayoutStatus calls db)
                 = available_balance affiliateId db).
  { unfold available_balance. now rewrite Hp, Hr. }
  split; [exact Hbal|]. split.
  - unfold getAffiliateStats, bind, query, ret. simpl. now rewrite Hr, Hc.
  - assert (Husers : forall calls db,
              usersTable (run_updatePayoutStatus calls db) = usersTable db).
    { clear. induction calls as [|call calls IH]; intros db; simpl; [reflexivity|].
      rewrite IH.
      destruct (payout_with_id (UpdatePayoutStatusInput.id (UpdateCall.input call)) db)
        as [q|] eqn:Hfind.
      - now rewrite (updatePayoutStatus_found _ _ _ _ _ Hfind).
      - now rewrite (updatePayoutStatus_missing _ _ _ _ Hfind). }
    assert (Hexists : affiliate_exists affiliateId (run_updatePayoutStatus calls db)
                      <-> affiliate_exists affiliateId db).
    { unfold affiliate_exists. now rewrite Husers. }
    intros requested_at now input.
    destruct (createPayoutRequest_cases requested_at now affiliateId input db)
      as [[Hno Heq]|[(Hex & Hlt & Heq)|(Hex & Hle & Heq)]];
      destruct (createPayoutRequest_cases requested_at now affiliateId input
                  (run_updatePayoutStatus calls db))
        as [[Hno' Heq']|[(Hex' & Hlt' & Heq')|(Hex' & Hle' & Heq')]];
      rewrite Heq, Heq'; unfold insert_payout_request; simpl;
      try tauto; try (split; discriminate);
      rewrite Hbal in *; exfalso;
      first [ exact (Qlt_not_le _ _ Hlt Hle') | exact (Qlt_not_le _ _ Hlt' Hle) ].
Qed.

(** X5: after any sequence of [updatePayoutStatus] calls a payout request has
    the status given by the last call that addressed it (paid may follow
    pending and pending may follow paid: no transition is refused), or its
    old status when no call addressed it. *)
Theorem status_follows_last_call (calls : list UpdateCall.t) (db : DB) (id : Z)
    (p : PayoutRequest.t) :
  payout_with_id id db = Some p ->
  exists p', payout_with_id id (run_updatePayoutStatus calls db) = Some p'
    /\ PayoutRequest.status p'
       = match last_status id calls with
         | Some s => s
         | None => PayoutRequest.status p
         end
    /\ PayoutRequest.amount p' = PayoutRequest.amount p
    /\ PayoutRequest.affiliate_id p' = PayoutRequest.affiliate_id p.
Proof.
  revert db p. induction calls as [|call calls IH]; intros db p Hfind; simpl.
  - exists p. now repeat split.
  - pose proof (updatePayoutStatus_step (UpdateCall.updated_at call)
                  (UpdateCall.processed_at call) (UpdateCall.input call) db id p Hfind)
      as Hstep.
    destruct (IH _ _ Hstep) as (p' & Hp' & Hstatus & Hamount & Haff).
    exists p'. split; [exact Hp'|].
    destruct (UpdatePayoutStatusInput.id (UpdateCall.input call) =? id);
      destruct (last_status id calls); simpl in *; now repeat split.
Qed.

Lemma status_follows_last_call_witness :
  payout_with_id 1 db_one_payout = Some payout_60000
  /\ exists p',
       payout_with_id 1
         (run_updatePayoutStatus [call_paid_11; call_pending_21] db_one_payout) = Some p'
       /\ PayoutRequest.status p'
          = match last_status 1 [call_paid_11; call_pending_21] with
            | Some s => s
            | None => PayoutRequest.status payout_60000
            end
       /\ PayoutRequest.amount p' = PayoutRequest.amount payout_60000
       /\ PayoutRequest.affiliate_id p' = PayoutRequest.affiliate_id payout_60000.
Proof.
  split; [reflexivity|].
  apply (status_follows_last_call [call_paid_11; call_pending_21] db_one_payout 1
           payout_60000).
  reflexivity.
Defined.

(** ** Statistics and registrations *)




Lemma update_rows_totals (affiliateId : Z) (c : Registration.t -> bool)
    (f : Registration.t -> Registration.t) (rows : list Registration.t) :
  (forall x, Registration.affiliate_id (f x) = Registration.affiliate_id x
             /\ Registration.commission_amount (f x) = Registration.commission_amount x) ->
  map Registration.commission_amount
    (filter (fun r => Registration.affiliate_id r =? affiliateId) (update_rows c f rows))
  = map Registration.commission_amount
      (filter (fun r => Registration.affiliate_id r =? affiliateId) rows).
Proof.
  intros Hf. induction rows as [|x rows IH]; simpl; [reflexivity|].
  destruct (c x).
  - destruct (Hf x) as [Haff Hamount]. rewrite Haff.
    destruct (Registration.affiliate_id x =? affiliateId); simpl; [|exact IH].
    now rewrite Hamount, IH.
  - destruct (Registration.affiliate_id x =? affiliateId); simpl; [|exact IH].
    now rewrite IH.
Qed.

Lemma same_money_view (rows1 rows2 : list Registration.t) :
  map money_view rows1 = map money_view rows2 ->
  forall a,
    verified_commission_of a rows1 = verified_commission_of a rows2
    /\ map Registration.commission_amount
         (filter (fun r => Registration.affiliate_id r =? a) rows1)
       = map Registration.commission_amount
           (filter (fun r => Registration.affiliate_id r =? a) rows2)
    /\ forall s, map Registration.commission_amount
                   (filter (registration_of a s) rows1)
                 = map Registration.commission_amount
                     (filter (registration_of a s) rows2).
Proof.
  revert rows2. induction rows1 as [|x rows1 IH]; intros [|y rows2] Hview a;
    try discriminate Hview.
  { split; [reflexivity|]. split; [reflexivity|]. intros s. reflexivity. }
  simpl in Hview. injection Hview as Haff Hstatus Hamount Hrest.
  destruct (IH rows2 Hrest a) as (Hv & Ht & Hs).
  simpl. unfold registration_of. rewrite Haff, Hstatus, Hamount, Hv.
  split; [reflexivity|]. split.
  - destruct (Registration.affiliate_id y =? a); simpl; now rewrite ?Hamount, Ht.
  - intros s. specialize (Hs s). unfold registration_of in Hs.
    destruct ((Registration.affiliate_id y =? a)
              && RegistrationStatus_eqb (Registration.status y) s); simpl;
      now rewrite ?Hamount, Hs.
Qed.

Lemma verify_twice_view (id : Z) (t1 t2 t3 t4 : Date) (rows : list Registration.t) :
  map money_view
    (update_rows (fun r => Registration.id r =? id) (set_payment_verified t3 t4)
       (update_rows (fun r => Registration.id r =? id) (set_payment_verified t1 t2) rows))
  = map money_view
      (update_rows (fun r => Registration.id r =? id) (set_payment_verified t1 t2) rows).
Proof.
  induction rows as [|x rows IH]; simpl; [reflexivity|].
  rewrite IH. f_equal.
  destruct (Registration.id x =? id) eqn:E; simpl; rewrite E; reflexivity.
Qed.

Lemma stats_of_tables (a : Z) (db1 db2 : DB) :
  linkClicksTable db1 = linkClicksTable db2 ->
  map money_view (registrationsTable db1) = map money_view (registrationsTable db2) ->
  fst (getAffiliateStats a db1) = fst (getAffiliateStats a db2).
Proof.
  intros Hclicks Hview.
  destruct (same_money_view _ _ Hview a) as (_ & Htotal & Hstatus).
  unfold getAffiliateStats, bind, query, ret. simpl.
  rewrite Hclicks, Htotal, !Hstatus.
  assert (Hlen : List.length (filter (fun r => Registration.affiliate_id r =? a)
                                (registrationsTable db1))
                 = List.length (filter (fun r => Registration.affiliate_id r =? a)
                                  (registrationsTable db2))).
  { rewrite <- (length_map Registration.commission_amount), Htotal.
    apply length_map. }
  unfold sql_count. now rewrite Hlen.
Qed.

(** X7: [verifyPayment] changes, for no affiliate, the number of clicks, the
    number of registrations or the total commission of the statistics; and
    verifying the same registration again changes no number of the statistics
    and no available balance, only the time stamps. *)
Theorem verifyPayment_keeps_totals (verified_at updated_at : Date) (id : Z) (db : DB)
    (affiliateId : Z) :
  let db' := snd (verifyPayment verified_at updated_at id db) in
  (forall stats stats',
     fst (getAffiliateStats affiliateId db) = Resolved stats ->
     fst (getAffiliateStats affiliateId db') = Resolved stats' ->
     AffiliateStats.total_clicks stats' = AffiliateStats.total_clicks stats
     /\ AffiliateStats.total_registrations stats' = AffiliateStats.total_registrations stats
     /\ AffiliateStats.total_commission stats' = AffiliateStats.total_commission stats)
  /\ (forall verified_again updated_again,
        let db'' := snd (verifyPayment verified_again updated_again id db') in
        fst (getAffiliateStats affiliateId db'') = fst (getAffiliateStats affiliateId db')
        /\ available_balance affiliateId db'' = available_balance affiliateId db').
Proof.
  intros db'. subst db'.
  assert (Hother : forall t1 t2 d,
            linkClicksTable (snd (verifyPayment t1 t2 id d)) = linkClicksTable d
            /\ payoutRequestsTable (snd (verifyPayment t1 t2 id d))
               = payoutRequestsTable d).
  { intros t1 t2 d. unfold verifyPayment, bind, update_registrations.
    destruct (returning _ _ (registrationsTable d)); now split. }
  split.
  - intros stats stats'. unfold getAffiliateStats, bind, query, ret. simpl.
    rewrite verifyPayment_table, (proj1 (Hother _ _ _)).
    rewrite (update_rows_totals affiliateId) by (intros x; now split).
    assert (Hlen : List.length
                     (filter (fun r => Registration.affiliate_id r =? affiliateId)
                        (update_rows (fun r => Registration.id r =? id)
                           (set_payment_verified verified_at updated_at)
                           (registrationsTable db)))
                   = List.length
                       (filter (fun r => Registration.affiliate_id r =? affiliateId)
                          (registrationsTable db))).
    { rewrite <- (length_map Registration.commission_amount).
      rewrite (update_rows_totals affiliateId) by (intros x; now split).
      apply length_map. }
    unfold sql_count. rewrite Hlen.
    intros [= <-] [= <-]. now repeat split.
  - intros verified_again updated_again db''. subst db''.
    assert (Hview : map money_view
                      (registrationsTable
                         (snd (verifyPayment verified_again updated_again id
                                 (snd (verifyPayment verified_at updated_at id db)))))
                    = map money_view
                        (registrationsTable
                           (snd (verifyPayment verified_at updated_at id db)))).
    { rewrite !verifyPayment_table. apply verify_twice_view. }
    split.
    + apply stats_of_tables; [apply Hother|exact Hview].
    + unfold available_balance.
      rewrite (proj2 (Hother verified_again updated_again _)).
      now rewrite (proj1 (same_money_view _ _ Hview affiliateId)).
Qed.

Lemma update_rows_absent {A} (c : A -> bool) (f : A -> A) (rows : list A) :
  (forall x, In x rows -> c x = false) -> update_rows c f rows = rows.
Proof.
  intros H. apply update_rows_none.
  destruct (find c rows) as [x|] eqn:E; [|reflexivity].
  apply find_some in E. destruct E as [Hin Hc]. rewrite (H x Hin) in Hc. discriminate.
Qed.

(** What a verification adds to the verified commission of an affiliate. *)
Lemma verified_commission_of_verify (a : Z) (t1 t2 : Date) (rows : list Registration.t)
    (r : Registration.t) :
  NoDup (map Registration.id rows) ->
  In r rows ->
  (verified_commission_of a
     (update_rows (fun x => Registration.id x =? Registration.id r)
        (set_payment_verified t1 t2) rows)
   == verified_commission_of a rows
      + (if (Registration.affiliate_id r =? a)
             && RegistrationStatus_eqb (Registration.status r) pending
         then Registration.commission_amount r else 0))%Q.
Proof.
  induction rows as [|x rows IH]; intros Hnodup Hin; [contradiction|].
  inversion Hnodup as [|? ? Hnotin Hrest]; subst.
  cbn [update_rows map].
  destruct Hin as [->|Hin].
  - rewrite Z.eqb_refl.
    change (map (fun r0 => if Registration.id r0 =? Registration.id r
                           then set_payment_verified t1 t2 r0 else r0) rows)
      with (update_rows (fun x => Registration.id x =? Registration.id r)
              (set_payment_verified t1 t2) rows).
    rewrite update_rows_absent.
    + simpl.
      destruct (Z.eq_dec (Registration.affiliate_id r) a) as [E|E].
      * apply Z.eqb_eq in E. rewrite E. destruct (Registration.status r); simpl; lra.
      * apply Z.eqb_neq in E. rewrite E. simpl. lra.
    + intros y Hy. apply Z.eqb_neq. intros Heq. apply Hnotin. rewrite <- Heq.
      now apply in_map.
  - assert (Hne : (Registration.id x =? Registration.id r) = false).
    { apply Z.eqb_neq. intros Heq. apply Hnotin. rewrite Heq. now apply in_map. }
    rewrite Hne.
    change (map (fun r0 => if Registration.id r0 =? Registration.id r
                           then set_payment_verified t1 t2 r0 else r0) rows)
      with (update_rows (fun x => Registration.id x =? Registration.id r)
              (set_payment_verified t1 t2) rows).
    simpl. specialize (IH Hrest Hin).
    destruct (Z.eq_dec (Registration.affiliate_id x) a);
      destruct (Registration.status x); rewrite IH; lra.
Qed.

(** X8: where registration ids are distinct, verifying a pending
    registration raises the available balance of its affiliate by exactly its
    stored commission; verifying one that is already verified raises nothing;
    no other affiliate's balance moves. *)
Theorem verifyPayment_releases_commission (verified_at updated_at : Date) (db : DB)
    (r : Registration.t) (affiliateId : Z) :
  NoDup (map Registration.id (registrationsTable db)) ->
  In r (registrationsTable db) ->
  (available_balance affiliateId
     (snd (verifyPayment verified_at updated_at (Registration.id r) db))
   == available_balance affiliateId db
      + (if (Registration.affiliate_id r =? affiliateId)
             && RegistrationStatus_eqb (Registration.status r) pending
         then Registration.commission_amount r else 0))%Q.
Proof.
  intros Hnodup Hin. unfold available_balance.
  rewrite verifyPayment_table.
  rewrite (verified_commission_of_verify affiliateId _ _ _ r Hnodup Hin).
  assert (Hp : payoutRequestsTable
                 (snd (verifyPayment verified_at updated_at (Registration.id r) db))
               = payoutRequestsTable db).
  { unfold verifyPayment, bind, update_registrations.
    destruct (returning _ _ (registrationsTable db)); reflexivity. }
  rewrite Hp. lra.
Qed.

Lemma verifyPayment_releases_commission_witness :
  NoDup (map Registration.id (registrationsTable db_two_registrations))
  /\ In registration_pending_50000 (registrationsTable db_two_registrations)
  /\ (available_balance 1 (snd (verifyPayment 9%N 9%N 2 db_two_registrations))
      == available_balance 1 db_two_registrations + 50000)%Q.
Proof.
  assert (Hnodup : NoDup (map Registration.id (registrationsTable db_two_registrations))).
  { simpl. repeat constructor; simpl; intuition discriminate. }
  assert (Hin : In registration_pending_50000 (registrationsTable db_two_registrations)).
  { right. left. reflexivity. }
  split; [exact Hnodup|]. split; [exact Hin|].
  exact (verifyPayment_releases_commission 9%N 9%N db_two_registrations
           registration_pending_50000 1 Hnodup Hin).
Defined.

Lemma filter_head_In {A} (c : A -> bool) (rows : list A) (x : A) (rest : list A) :
  filter c rows = x :: rest -> In x rows /\ c x = true.
Proof.
  intros H. apply filter_In. rewrite H. now left.
Qed.






(** ** Users *)

Lemma email_taken_filter (email : string) (db : DB) :
  email_taken email db <->
  firstn 1 (filter (fun u => String.eqb (User.email u) email) (usersTable db)) <> [].
Proof.
  rewrite find_filter_head. unfold email_taken. split.
  - intros (u & Hin & Hemail).
    destruct (find _ (usersTable db)) as [x|] eqn:E; [discriminate|].
    apply (find_none _ _ E) in Hin. rewrite Hemail, String.eqb_refl in Hin.
    discriminate.
  - destruct (find _ (usersTable db)) as [x|] eqn:E; [|congruence].
    intros _. apply find_some in E. destruct E as [Hin Heq].
    apply String.eqb_eq in Heq. now exists x.
Qed.

(** The ways [registerUser] ends. *)
Lemma registerUser_cases (hashPassword : string -> string) (fuel : nat)
    (clock : nat -> Date) (random : nat -> list N) (now : Date)
    (input : CreateUserInput.t) (db : DB) :
  let create affiliateCode :=
    insert_user (fun id =>
      User.mk id (CreateUserInput.email input)
        (hashPassword (CreateUserInput.password input))
        (CreateUserInput.full_name input) (CreateUserInput.role input)
        affiliateCode now now) db in
  (email_taken (CreateUserInput.email input) db
   /\ registerUser hashPassword fuel clock random now input db
      = Some (Rejected "Email already exists", db))
  \/ (~ email_taken (CreateUserInput.email input) db
      /\ CreateUserInput.role input = admin
      /\ registerUser hashPassword fuel clock random now input db = Some (create None))
  \/ (~ email_taken (CreateUserInput.email input) db
      /\ CreateUserInput.role input = affiliate
      /\ registerUser hashPassword fuel clock random now input db
         = match unique_code_loop fuel 0 clock random db with
           | Some code => Some (create (Some code))
           | None => None
           end).
Proof.
  intros create. subst create. unfold registerUser.
  pose proof (email_taken_filter (CreateUserInput.email input) db) as Htaken.
  destruct (firstn 1 _) as [|x xs].
  - right. assert (Hfree : ~ email_taken (CreateUserInput.email input) db)
      by (rewrite Htaken; tauto).
    destruct (CreateUserInput.role input); simpl; [right|left]; now repeat split.
  - left. split; [|reflexivity]. apply Htaken. discriminate.
Qed.

(** X11: [registerUser] is rejected with "Email already exists" exactly when
    a user has the email, whatever the role, and then neither looks for a code
    nor writes; an admin with a new email is always stored, with no affiliate
    code and without the code loop running; every stored user carries the
    hash of the password, never the password as given, the next id of the
    sequence, and the email, name and role as given. *)
Theorem registerUser_result (hashPassword : string -> string) (fuel : nat)
    (clock : nat -> Date) (random : nat -> list N) (now : Date)
    (input : CreateUserInput.t) (db : DB) :
  let result := registerUser hashPassword fuel clock random now input db in
  (email_taken (CreateUserInput.email input) db ->
   result = Some (Rejected "Email already exists", db))
  /\ (forall e db', result = Some (Rejected e, db') ->
      e = "Email already exists" /\ db' = db
      /\ email_taken (CreateUserInput.email input) db)
  /\ (~ email_taken (CreateUserInput.email input) db ->
      CreateUserInput.role input = admin ->
      exists u, result = Some (Resolved u, set_usersTable (usersTable db ++ [u])
                                             (users_id_seq db + 1) db)
        /\ User.affiliate_code u = None)
  /\ (forall u db', result = Some (Resolved u, db') ->
      User.id u = users_id_seq db + 1
      /\ User.email u = CreateUserInput.email input
      /\ User.password_hash u = hashPassword (CreateUserInput.password input)
      /\ User.full_name u = CreateUserInput.full_name input
      /\ User.role u = CreateUserInput.role input
      /\ usersTable db' = (usersTable db ++ [u])%list
      /\ ~ email_taken (CreateUserInput.email input) db).
Proof.
  intros result. subst result.
  destruct (registerUser_cases hashPassword fuel clock random now input db)
    as [[Htaken Heq]|[(Hfree & Hrole & Heq)|(Hfree & Hrole & Heq)]]; rewrite Heq.
  - split; [reflexivity|]. split; [|split].
    + intros e db' [= <- <-]. now repeat split.
    + contradiction.
    + discriminate.
  - unfold insert_user. split; [contradiction|]. split; [discriminate|]. split.
    + intros _ _. eexists. split; reflexivity.
    + intros u db' [= <- <-]. simpl. now repeat split.
  - split; [contradiction|].
    destruct (unique_code_loop fuel 0 clock random db) as [code|].
    + unfold insert_user. split; [discriminate|]. split.
      * intros _ Hadmin. rewrite Hadmin in Hrole. discriminate.
      * intros u db' [= <- <-]. simpl. now repeat split.
    + split; [discriminate|]. split; [|discriminate].
      intros _ Hadmin. rewrite Hadmin in Hrole. discriminate.
Qed.

Lemma loginUser_first_match (hashPassword : string -> string) (input : LoginInput.t)
    (db : DB) (u : User.t) :
  find (fun x => String.eqb (User.email x) (LoginInput.email input)) (usersTable db)
  = Some u ->
  loginUser hashPassword input db
  = if String.eqb (hashPassword (LoginInput.password input)) (User.password_hash u)
    then (Resolved u, db) else (Rejected "Invalid email or password", db).
Proof.
  intros Hfind. unfold loginUser, bind, query. rewrite find_filter_head, Hfind.
  cbv beta iota. now destruct (String.eqb _ _).
Qed.

Lemma find_app_new {A} (c : A -> bool) (rows : list A) (x : A) :
  (forall y, In y rows -> c y = false) -> c x = true -> find c (rows ++ [x]) = Some x.
Proof.
  intros Hnone Hx. induction rows as [|y rows IH]; simpl.
  - now rewrite Hx.
  - rewrite (Hnone y (or_introl eq_refl)). apply IH. intros z Hz. apply Hnone. now right.
Qed.

(** X12: a user [registerUser] has stored can log in: [loginUser] with the
    email and password of the registration returns that user, and with a
    password of another hash it is rejected. *)
Theorem registerUser_then_loginUser (hashPassword : string -> string) (fuel : nat)
    (clock : nat -> Date) (random : nat -> list N) (now : Date)
    (input : CreateUserInput.t) (db db' : DB) (u : User.t) :
  registerUser hashPassword fuel clock random now input db = Some (Resolved u, db') ->
  loginUser hashPassword
    (LoginInput.mk (CreateUserInput.email input) (CreateUserInput.password input)) db'
  = (Resolved u, db')
  /\ (forall password,
        hashPassword password <> hashPassword (CreateUserInput.password input) ->
        loginUser hashPassword (LoginInput.mk (CreateUserInput.email input) password) db'
        = (Rejected "Invalid email or password", db')).
Proof.
  intros Hreg.
  assert (Hfacts : User.email u = CreateUserInput.email input
                   /\ User.password_hash u = hashPassword (CreateUserInput.password input)
                   /\ usersTable db' = (usersTable db ++ [u])%list
                   /\ ~ email_taken (CreateUserInput.email input) db).
  { destruct (registerUser_cases hashPassword fuel clock random now input db)
      as [[Htaken Heq]|[(Hfree & Hrole & Heq)|(Hfree & Hrole & Heq)]];
      rewrite Heq in Hreg; try discriminate.
    - unfold insert_user in Hreg. injection Hreg as <- <-. now repeat split.
    - destruct (unique_code_loop fuel 0 clock random db); [|discriminate].
      unfold insert_user in Hreg. injection Hreg as <- <-. now repeat split. }
  destruct Hfacts as (Hemail & Hhash & Husers & Hfree).
  assert (Hfind : forall password,
            find (fun x => String.eqb (User.email x)
                             (LoginInput.email
                                (LoginInput.mk (CreateUserInput.email input) password)))
                 (usersTable db') = Some u).
  { intros password. rewrite Husers. simpl. apply find_app_new.
    - intros y Hy. apply String.eqb_neq. intros Heq. apply Hfree. now exists y.
    - rewrite Hemail. apply String.eqb_refl. }
  split.
  - rewrite (loginUser_first_match _ _ _ _ (Hfind _)). simpl.
    now rewrite Hhash, String.eqb_refl.
  - intros password Hother.
    rewrite (loginUser_first_match _ _ _ _ (Hfind _)). simpl. rewrite Hhash.
    apply String.eqb_neq in Hother. now rewrite Hother.
Qed.

Lemma registerUser_then_loginUser_witness :
  registerUser toy_hash 1 clock_fixed random_abcdef 100%N input_new_affiliate emptyDB
  = Some (register input_new_affiliate emptyDB)
  /\ fst (loginUser toy_hash (LoginInput.mk "affiliate@test.com" "password123")
            (snd (register input_new_affiliate emptyDB)))
     = fst (register input_new_affiliate emptyDB).
Proof.
  split; [reflexivity|].
  assert (H : registerUser toy_hash 1 clock_fixed random_abcdef 100%N
                input_new_affiliate emptyDB
              = Some (Resolved user_registered,
                      snd (register input_new_affiliate emptyDB)))
    by reflexivity.
  exact (f_equal fst
           (proj1 (registerUser_then_loginUser toy_hash 1 clock_fixed random_abcdef
                     100%N input_new_affiliate emptyDB _ _ H))).
Defined.

Lemma code_exists_false (code : string) (db : DB) :
  code_exists code db = false <->
  forall u, In u (usersTable db) -> User.affiliate_code u <> Some code.
Proof.
  unfold code_exists. split.
  - intros H u Hin Hcode.
    assert (Hex : existsb (fun u => eq_nullable (User.affiliate_code u) code)
                    (usersTable db) = true).
    { apply existsb_exists. exists u. split; [exact Hin|].
      unfold eq_nullable. rewrite Hcode. apply String.eqb_refl. }
    congruence.
  - intros H.
    destruct (existsb _ (usersTable db)) eqn:E; [|reflexivity].
    apply existsb_exists in E. destruct E as (u & Hin & Hc).
    unfold eq_nullable in Hc. destruct (User.affiliate_code u) as [c|] eqn:Hcode;
      [|discriminate].
    apply String.eqb_eq in Hc. subst c. exfalso. exact (H u Hin Hcode).
Qed.

(** X13: [getAffiliateByCode] always resolves and writes nothing; it returns
    no user exactly when no user carries the code, character for character
    (whatever the user's role), and otherwise the first user of the table who
    carries it. *)
Theorem getAffiliateByCode_result (affiliateCode : string) (db : DB) :
  exists found, getAffiliateByCode affiliateCode db = (Resolved found, db)
    /\ (found = None <->
        forall u, In u (usersTable db) -> User.affiliate_code u <> Some affiliateCode)
    /\ (forall u, found = Some u ->
        In u (usersTable db) /\ User.affiliate_code u = Some affiliateCode)
    /\ found = find (fun u => eq_nullable (User.affiliate_code u) affiliateCode)
                    (usersTable db).
Proof.
  unfold getAffiliateByCode, bind, query.
  assert (Hhead : forall rows : list User.t,
            match filter (fun u => eq_nullable (User.affiliate_code u) affiliateCode) rows
            with [] => None | x :: _ => Some x end
            = find (fun u => eq_nullable (User.affiliate_code u) affiliateCode) rows).
  { induction rows as [|x rows IH]; simpl; [reflexivity|].
    now destruct (eq_nullable (User.affiliate_code x) affiliateCode). }
  exists (find (fun u => eq_nullable (User.affiliate_code u) affiliateCode) (usersTable db)).
  rewrite <- Hhead.
  destruct (filter _ (usersTable db)) as [|x xs] eqn:Hfilter; simpl.
  - split; [reflexivity|]. split; [|split; [discriminate|reflexivity]].
    split; [|reflexivity]. intros _ u Hin Hcode.
    assert (Hu : In u (filter (fun u => eq_nullable (User.affiliate_code u) affiliateCode)
                         (usersTable db))).
    { apply filter_In. split; [exact Hin|].
      unfold eq_nullable. rewrite Hcode. apply String.eqb_refl. }
    rewrite Hfilter in Hu. exact Hu.
  - destruct (filter_head_In _ _ _ _ Hfilter) as [Hin Hc].
    assert (Hcode : User.affiliate_code x = Some affiliateCode).
    { unfold eq_nullable in Hc. destruct (User.affiliate_code x) as [c|]; [|discriminate].
      apply String.eqb_eq in Hc. now subst. }
    split; [reflexivity|]. split; [|split; [|reflexivity]].
    + split; [discriminate|]. intros H. exfalso. exact (H x Hin Hcode).
    + intros u [= <-]. now split.
Qed.

Example getAffiliateByCode_case_sensitive :
  getAffiliateByCode "AFF123" db_two_users = (Resolved (Some user_affiliate_1), db_two_users)
  /\ getAffiliateByCode "aff123" db_two_users = (Resolved None, db_two_users)
  /\ getAffiliateByCode "" db_two_users = (Resolved None, db_two_users).
Proof. repeat split. Qed.

(** X14: the code [registerUser] gives a new affiliate names that affiliate
    at once and no one else: [getAffiliateByCode] returns the new user, and a
    link click or a registration made with the code is credited to the new
    user's id. *)
Theorem registerUser_code_identifies (hashPassword : string -> string) (fuel : nat)
    (clock : nat -> Date) (random : nat -> list N) (now : Date)
    (input : CreateUserInput.t) (db db' : DB) (u : User.t) :
  registerUser hashPassword fuel clock random now input db = Some (Resolved u, db') ->
  CreateUserInput.role input = affiliate ->
  exists code, User.affiliate_code u = Some code
    /\ getAffiliateByCode code db' = (Resolved (Some u), db')
    /\ (forall clicked input' c,
          TrackLinkClickInput.affiliate_code input' = code ->
          resolved (trackLinkClick clicked input' db') = Some c ->
          LinkClick.affiliate_id c = User.id u)
    /\ (forall clicked ip user_agent,
          exists c, resolved (trackLinkClick clicked
                                (TrackLinkClickInput.mk code ip user_agent) db') = Some c)
    /\ (forall created input' r,
          CreateRegistrationInput.affiliate_code input' = code ->
          resolved (createRegistration created input' db') = Some r ->
          Registration.affiliate_id r = User.id u).
Proof.
  intros Hreg Hrole.
  destruct (registerUser_code _ _ _ _ _ _ _ _ _ Hreg) as (Hcode & _ & Husers).
  rewrite Hrole in Hcode.
  assert (Hrole_u : User.role u = affiliate).
  { destruct (registerUser_cases hashPassword fuel clock random now input db)
      as [[_ Heq]|[(_ & Hadmin & _)|(_ & _ & Heq)]]; rewrite ?Heq in Hreg;
      try discriminate; try congruence.
    destruct (unique_code_loop fuel 0 clock random db); [|discriminate].
    unfold insert_user in Hreg. injection Hreg as <- _. exact Hrole. }
  destruct (unique_code_loop fuel 0 clock random db) as [code|] eqn:Hloop;
    [|exfalso; unfold registerUser in Hreg; destruct (firstn 1 _); [|discriminate];
      rewrite Hrole in Hreg; simpl in Hreg; rewrite Hloop in Hreg; discriminate].
  destruct (unique_code_loop_result _ _ _ _ _ _ Hloop) as (k & _ & _ & Hfree & _).
  exists code. split; [exact Hcode|].
  assert (Hold : forall c : User.t -> bool,
            (forall x, c x = true -> eq_nullable (User.affiliate_code x) code = true) ->
            filter c (usersTable db) = []).
  { intros c Hc. apply filter_nil_when. intros x Hin.
    destruct (c x) eqn:E; [|reflexivity].
    apply Hc in E. unfold code_exists in Hfree.
    assert (Hex : existsb (fun u => eq_nullable (User.affiliate_code u) code)
                    (usersTable db) = true)
      by (apply existsb_exists; now exists x).
    congruence. }
  assert (Hmatch : filter (is_affiliate_with_code code) (usersTable db') = [u]).
  { rewrite Husers, filter_app, Hold.
    - simpl. unfold is_affiliate_with_code, eq_nullable.
      now rewrite Hcode, Hrole_u, String.eqb_refl.
    - intros x Hx. unfold is_affiliate_with_code in Hx.
      now apply andb_true_iff in Hx. }
  split; [|split; [|split]].
  - unfold getAffiliateByCode, bind, query. rewrite Husers, filter_app, Hold by auto.
    simpl. unfold eq_nullable. now rewrite Hcode, String.eqb_refl.
  - intros clicked input' c Hinput. unfold trackLinkClick, bind, query, resolved.
    rewrite Hinput, Hmatch. unfold insert_link_click. simpl. now intros [= <-].
  - intros clicked ip user_agent. unfold trackLinkClick, bind, query, resolved.
    simpl. rewrite Hmatch. unfold insert_link_click. simpl. now eexists.
  - intros created input' r Hinput. unfold createRegistration, bind, query, resolved.
    rewrite Hinput, Hmatch. cbv beta iota.
    destruct (filter _ (programsTable db')); [discriminate|].
    unfold insert_registration. simpl. now intros [= <-].
Qed.

Lemma registerUser_code_identifies_witness :
  registerUser toy_hash 1 clock_fixed random_abcdef 100%N input_new_affiliate emptyDB
  = Some (Resolved user_registered, snd (register input_new_affiliate emptyDB))
  /\ CreateUserInput.role input_new_affiliate = affiliate
  /\ exists code,
       User.affiliate_code user_registered = Some code
       /\ getAffiliateByCode code (snd (register input_new_affiliate emptyDB))
          = (Resolved (Some user_registered), snd (register input_new_affiliate emptyDB)).
Proof.
  assert (H : registerUser toy_hash 1 clock_fixed random_abcdef 100%N
                input_new_affiliate emptyDB
              = Some (Resolved user_registered,
                      snd (register input_new_affiliate emptyDB)))
    by reflexivity.
  split; [exact H|]. split; [reflexivity|].
  destruct (registerUser_code_identifies toy_hash 1 clock_fixed random_abcdef 100%N
              input_new_affiliate emptyDB _ _ H eq_refl) as (code & Hcode & Hget & _).
  exists code. now split.
Defined.

Lemma affiliate_codes_In (users : list User.t) (code : string) :
  In code (affiliate_codes users) <->
  exists u, In u users /\ User.affiliate_code u = Some code.
Proof.
  unfold affiliate_codes. rewrite in_flat_map. split.
  - intros (u & Hin & Hc). exists u. split; [exact Hin|].
    destruct (User.affiliate_code u) as [c|]; [|contradiction].
    destruct Hc as [->|[]]. reflexivity.
  - intros (u & Hin & Hcode). exists u. split; [exact Hin|].
    rewrite Hcode. now left.
Qed.

(** What one call does to the users: nothing, or one new user whose email
    no user had and whose code, if any, no user carried. *)
Lemma step_users (hashPassword : string -> string) (db db' : DB) :
  step hashPassword db db' ->
  usersTable db' = usersTable db
  \/ exists u, usersTable db' = (usersTable db ++ [u])%list
       /\ ~ email_taken (User.email u) db
       /\ ((User.role u = admin /\ User.affiliate_code u = None)
           \/ (User.role u = affiliate
               /\ exists code, User.affiliate_code u = Some code
                    /\ code_exists code db = false)).
Proof.
  intros Hstep. destruct Hstep.
  - destruct (registerUser_cases hashPassword fuel clock random now input db)
      as [[_ Heq]|[(Hfree & Hrole & Heq)|(Hfree & Hrole & Heq)]]; rewrite Heq in H.
    + injection H as <-. now left.
    + injection H as <-. right. eexists. split; [reflexivity|]. simpl.
      split; [exact Hfree|]. left. now split.
    + destruct (unique_code_loop fuel 0 clock random db) as [code|] eqn:Hloop;
        [|discriminate].
      injection H as <-. right. eexists. split; [reflexivity|]. simpl.
      split; [exact Hfree|]. right. split; [exact Hrole|].
      exists code. split; [reflexivity|].
      now destruct (unique_code_loop_result _ _ _ _ _ _ Hloop) as (k & _ & _ & Hnew & _).
  - unfold createAdminUser, bind, query.
    destruct (filter _ (usersTable db)) as [|x xs] eqn:Hfilter; [|now left].
    right. eexists. split; [reflexivity|]. simpl. split; [|left; now split].
    intros (y & Hin & Hemail).
    assert (Hy : In y (filter (fun u => String.eqb (User.email u)
                                          "admin@englishbooster.com")
                         (usersTable db))).
    { apply filter_In. split; [exact Hin|]. rewrite Hemail. reflexivity. }
    rewrite Hfilter in Hy. exact Hy.
  - left. unfold seedPrograms. exact (proj1 (insert_programs_tables _ db)).
  - left. reflexivity.
  - left. unfold updateProgram, bind, update_programs.
    now destruct (returning _ _ _).
  - left. unfold deleteProgram, bind, update_programs.
    now destruct (returning _ _ _).
  - left. unfold createRegistration, bind, query.
    destruct (filter _ (usersTable db)); [reflexivity|]. cbv beta iota.
    now destruct (filter _ (programsTable db)).
  - left. unfold verifyPayment, bind, update_registrations.
    now destruct (returning _ _ _).
  - left. unfold trackLinkClick, bind, query.
    now destruct (filter _ (usersTable db)).
  - left. unfold createPayoutRequest, bind, query.
    destruct (filter _ (usersTable db)); [reflexivity|]. cbv beta iota.
    now destruct (Qltb _ _).
  - left. unfold updatePayoutStatus, bind, query.
    destruct (filter _ (payoutRequestsTable db)); [reflexivity|]. cbv beta iota.
    unfold update_payout_requests. now destruct (returning _ _ _).
Qed.

Lemma step_users_well_formed (hashPassword : string -> string) (db db' : DB) :
  step hashPassword db db' -> users_well_formed db -> users_well_formed db'.
Proof.
  intros Hstep (Hemails & Hcodes & Hroles).
  destruct (step_users _ _ _ Hstep) as [Hsame|(u & Husers & Hfree & Hcode)];
    clear Hstep; unfold users_well_formed.
  - rewrite Hsame. split; [exact Hemails|]. split; [exact Hcodes|exact Hroles].
  - rewrite Husers. split; [|split].
    + rewrite map_app. apply NoDup_app; [exact Hemails|repeat constructor; intros []|].
      intros e Hin [<-|[]]. apply in_map_iff in Hin.
      destruct Hin as (y & Hemail & Hin). apply Hfree. now exists y.
    + unfold affiliate_codes. rewrite flat_map_app. simpl. rewrite app_nil_r.
      destruct Hcode as [[_ Hnone]|(_ & code & Hsome & Hnew)].
      * rewrite Hnone, app_nil_r. exact Hcodes.
      * rewrite Hsome. apply NoDup_app; [exact Hcodes|repeat constructor; intros []|].
        intros c Hin [<-|[]]. apply affiliate_codes_In in Hin.
        destruct Hin as (y & Hin & Hy).
        exact (proj1 (code_exists_false _ _) Hnew y Hin Hy).
    + intros y Hin. apply in_app_or in Hin. destruct Hin as [Hin|[<-|[]]].
      * now apply Hroles.
      * destruct Hcode as [[Hrole Hnone]|(Hrole & code & Hsome & _)].
        -- rewrite Hrole, Hnone. tauto.
        -- rewrite Hrole, Hsome. split; discriminate.
Qed.

(** X15: in every store the handlers build from the empty one, no two users
    share an email, no two users share an affiliate code, every affiliate
    carries a code and no admin does. *)
Theorem reachable_users_well_formed (hashPassword : string -> string) (db : DB) :
  reachable hashPassword db ->
  NoDup (map User.email (usersTable db))
  /\ NoDup (affiliate_codes (usersTable db))
  /\ (forall u, In u (usersTable db) ->
        (User.role u = affiliate -> exists code, User.affiliate_code u = Some code)
        /\ (User.role u = admin -> User.affiliate_code u = None))
  /\ (forall u1 u2 code, In u1 (usersTable db) -> In u2 (usersTable db) ->
        User.affiliate_code u1 = Some code -> User.affiliate_code u2 = Some code ->
        User.email u1 = User.email u2).
Proof.
  intros Hreach.
  assert (Hwf : users_well_formed db).
  { induction Hreach as [|db db' _ IH Hstep].
    - unfold users_well_formed. simpl.
      split; [constructor|]. split; [constructor|intros u []].
    - exact (step_users_well_formed _ _ _ Hstep IH). }
  clear Hreach.
  destruct Hwf as (Hemails & Hcodes & Hroles).
  split; [exact Hemails|]. split; [exact Hcodes|]. split.
  - intros u Hin. specialize (Hroles u Hin). split.
    + intros Hrole. destruct (User.affiliate_code u) as [code|]; [now exists code|].
      assert (User.role u = admin) by now apply Hroles. congruence.
    + intros Hrole. now apply Hroles.
  - intros u1 u2 code. generalize (usersTable db) Hcodes. clear.
    induction l as [|x l IH]; intros Hnodup Hin1 Hin2 Hc1 Hc2; [contradiction|].
    simpl in Hnodup.
    assert (Htail : NoDup (affiliate_codes l)).
    { destruct (User.affiliate_code x); [now inversion Hnodup|exact Hnodup]. }
    assert (Hhead : forall y, In y l -> User.affiliate_code y = Some code ->
                      User.affiliate_code x <> Some code).
    { intros y Hy Hcy Hcx. rewrite Hcx in Hnodup. simpl in Hnodup.
      inversion Hnodup as [|? ? Hnotin _]. apply Hnotin.
      apply affiliate_codes_In. now exists y. }
    destruct Hin1 as [->|Hin1], Hin2 as [->|Hin2].
    + reflexivity.
    + exfalso. exact (Hhead u2 Hin2 Hc2 Hc1).
    + exfalso. exact (Hhead u1 Hin1 Hc1 Hc2).
    + now apply IH.
Qed.

Lemma reachable_users_well_formed_witness :
  reachable toy_hash db_built
  /\ NoDup (map User.email (usersTable db_built))
  /\ NoDup (affiliate_codes (usersTable db_built)).
Proof.
  split; [exact db_built_reachable|].
  destruct (reachable_users_well_formed toy_hash db_built db_built_reachable)
    as (Hemails & Hcodes & _).
  now split.
Defined.

Lemma createAdminUser_cases (db : DB) :
  (exists u, find (fun x => String.eqb (User.email x) "admin@englishbooster.com")
                  (usersTable db) = Some u
     /\ forall now, createAdminUser now db = (Resolved u, db))
  \/ (~ email_taken "admin@englishbooster.com" db
      /\ forall now,
           createAdminUser now db
           = insert_user (fun id =>
               User.mk id "admin@englishbooster.com" "admin123" "English Booster Admin"
                 admin None now now) db).
Proof.
  unfold createAdminUser, bind, query.
  assert (Hhead : forall rows : list User.t,
            match filter (fun x => String.eqb (User.email x) "admin@englishbooster.com")
                    rows
            with [] => None | x :: _ => Some x end
            = find (fun x => String.eqb (User.email x) "admin@englishbooster.com") rows).
  { induction rows as [|x rows IH]; simpl; [reflexivity|].
    now destruct (String.eqb (User.email x) "admin@englishbooster.com"). }
  specialize (Hhead (usersTable db)).
  destruct (filter _ (usersTable db)) as [|x xs] eqn:Hfilter.
  - right. split; [|reflexivity]. intros (y & Hin & Hemail).
    symmetry in Hhead. apply (find_none _ _ Hhead) in Hin.
    rewrite Hemail in Hin. discriminate.
  - left. exists x. now split.
Qed.

(** X16: [createAdminUser] is idempotent: a second call returns the user the
    first call returned and writes nothing. The first call stores an admin
    without affiliate code when no user has the admin email; when a user has
    it, that user is returned as found, whatever the role, and nothing is
    written. *)
Theorem createAdminUser_idempotent (now again : Date) (db : DB) :
  createAdminUser again (snd (createAdminUser now db))
  = (fst (createAdminUser now db), snd (createAdminUser now db))
  /\ (exists u, fst (createAdminUser now db) = Resolved u
        /\ User.email u = "admin@englishbooster.com")
  /\ (~ email_taken "admin@englishbooster.com" db ->
      exists u, createAdminUser now db
                = (Resolved u, set_usersTable (usersTable db ++ [u]) (users_id_seq db + 1) db)
        /\ User.role u = admin /\ User.affiliate_code u = None)
  /\ (forall u, In u (usersTable db) -> User.email u = "admin@englishbooster.com" ->
      snd (createAdminUser now db) = db
      /\ exists found, fst (createAdminUser now db) = Resolved found
           /\ In found (usersTable db)).
Proof.
  destruct (createAdminUser_cases db) as [(u & Hfind & Heq)|[Hfree Heq]];
    rewrite (Heq now).
  - pose proof (find_some _ _ Hfind) as [Hin Hemail]. apply String.eqb_eq in Hemail.
    simpl. split; [exact (Heq again)|]. split; [now exists u|]. split.
    + intros Hno. exfalso. apply Hno. now exists u.
    + intros _ _ _. split; [reflexivity|]. now exists u.
  - unfold insert_user. simpl. split; [|split; [|split]].
    + destruct (createAdminUser_cases
                  (set_usersTable
                     (usersTable db ++
                      [User.mk (users_id_seq db + 1) "admin@englishbooster.com"
                         "admin123" "English Booster Admin" admin None now now])
                     (users_id_seq db + 1) db))
        as [(u & Hfind & Heq')|[Hfree' _]].
      * rewrite (Heq' again). simpl in Hfind. rewrite find_app_new in Hfind.
        -- now injection Hfind as <-.
        -- intros y Hy. apply String.eqb_neq. intros Hemail. apply Hfree. now exists y.
        -- reflexivity.
      * exfalso. apply Hfree'. eexists. split; [apply in_or_app; right; now left|].
        reflexivity.
    + eexists. split; reflexivity.
    + intros _. eexists. split; [reflexivity|]. now split.
    + intros u Hin Hemail. exfalso. apply Hfree. now exists u.
Qed.

(** X17: the admin that [createAdminUser] stores cannot log in: the password
    is stored as given, not hashed, while [loginUser] compares the stored
    value with a hash, so with a hash of 64 hexadecimal digits every password
    is rejected. *)
Theorem created_admin_cannot_login (hashPassword : string -> string) (now : Date)
    (db : DB) (password : string) :
  (forall p, String.length (hashPassword p) = 64%nat) ->
  ~ email_taken "admin@englishbooster.com" db ->
  loginUser hashPassword (LoginInput.mk "admin@englishbooster.com" password)
    (snd (createAdminUser now db))
  = (Rejected "Invalid email or password", snd (createAdminUser now db)).
Proof.
  intros Hhash Hfree.
  destruct (createAdminUser_cases db) as [(u & Hfind & _)|[_ Heq]].
  - exfalso. apply find_some in Hfind. destruct Hfind as [Hin Hemail].
    apply String.eqb_eq in Hemail. apply Hfree. now exists u.
  - rewrite (Heq now). unfold insert_user. simpl.
    rewrite (loginUser_first_match hashPassword _ _
               (User.mk (users_id_seq db + 1) "admin@englishbooster.com" "admin123"
                  "English Booster Admin" admin None now now)).
    + simpl. destruct (String.eqb (hashPassword password) "admin123") eqn:E;
        [|reflexivity].
      apply String.eqb_eq in E. specialize (Hhash password). rewrite E in Hhash.
      discriminate.
    + simpl. apply find_app_new; [|reflexivity].
      intros y Hy. apply String.eqb_neq. intros Hemail. apply Hfree. now exists y.
Qed.

Lemma created_admin_cannot_login_witness :
  (forall p, String.length (hash_of_zeros p) = 64%nat)
  /\ ~ email_taken "admin@englishbooster.com" emptyDB
  /\ loginUser hash_of_zeros (LoginInput.mk "admin@englishbooster.com" "admin123")
       (snd (createAdminUser 1%N emptyDB))
     = (Rejected "Invalid email or password", snd (createAdminUser 1%N emptyDB)).
Proof.
  assert (H1 : forall p, String.length (hash_of_zeros p) = 64%nat) by reflexivity.
  assert (H2 : ~ email_taken "admin@englishbooster.com" emptyDB).
  { intros (u & [] & _). }
  split; [exact H1|]. split; [exact H2|].
  exact (created_admin_cannot_login hash_of_zeros 1%N emptyDB "admin123" H1 H2).
Defined.

(** ** Programs *)








(** Every program [seedPrograms] inserts carries the rate and commission
    type that the rate table gives for its program type. *)
Lemma seed_programs_rates :
  Forall (fun x : string * ProgramType * Q * Q * CommissionType =>
            let '(_, t, _, rate, type) := x in
            commissionRates (ProgramType_name t) = Some (rate_config rate type))
         seed_programs.
Proof.
  repeat constructor.
Qed.

(** X21: [getCommissionRateByProgramType] gives 10 percent for online, 7
    percent for offline_pare, a flat 100,000 for rombongan and 5 percent for
    cabang, which are the rate and type [seedPrograms] gives every program of
    that program type; for any other string that is not the name of a
    property every object inherits it is rejected with "Unknown program type: "
    followed by the string, and it never writes. *)
Theorem getCommissionRateByProgramType_result (programType : string) (db : DB) :
  snd (getCommissionRateByProgramType programType db) = db
  /\ (forall t, exists rate type,
        getCommissionRateByProgramType (ProgramType_name t) db
        = (Resolved (rate_config rate type), db)
        /\ forall name fee rate' type',
             In (name, t, fee, rate', type') seed_programs ->
             rate' = rate /\ type' = type)
  /\ ((forall t, programType <> ProgramType_name t) ->
      ~ In programType Object_prototype_keys ->
      getCommissionRateByProgramType programType db
      = (Rejected ("Unknown program type: " ++ programType), db))
  /\ (In programType Object_prototype_keys ->
      getCommissionRateByProgramType programType db
      = (Resolved (inherited_property programType), db)).
Proof.
  split; [|split; [|split]].
  - unfold getCommissionRateByProgramType. now destruct (commissionRates programType).
  - intros t.
    assert (Hrate : exists rate type,
              commissionRates (ProgramType_name t) = Some (rate_config rate type))
      by (destruct t; do 2 eexists; reflexivity).
    destruct Hrate as (rate & type & Hrate). exists rate, type. split.
    + unfold getCommissionRateByProgramType. now rewrite Hrate.
    + intros name fee rate' type' Hin.
      pose proof (proj1 (Forall_forall _ _) seed_programs_rates _ Hin) as Hseed.
      simpl in Hseed. rewrite Hrate in Hseed. now injection Hseed as -> ->.
  - intros Hother Hnot. unfold getCommissionRateByProgramType, commissionRates.
    destruct (String.eqb programType "online") eqn:E1;
      [apply String.eqb_eq in E1; exfalso; exact (Hother online E1)|].
    destruct (String.eqb programType "offline_pare") eqn:E2;
      [apply String.eqb_eq in E2; exfalso; exact (Hother offline_pare E2)|].
    destruct (String.eqb programType "rombongan") eqn:E3;
      [apply String.eqb_eq in E3; exfalso; exact (Hother rombongan E3)|].
    destruct (String.eqb programType "cabang") eqn:E4;
      [apply String.eqb_eq in E4; exfalso; exact (Hother cabang E4)|].
    destruct (existsb (String.eqb programType) Object_prototype_keys) eqn:E5;
      [|reflexivity].
    exfalso. apply Hnot. apply existsb_exists in E5. destruct E5 as (k & Hin & Hk).
    apply String.eqb_eq in Hk. now subst.
  - intros Hin. simpl in Hin.
    repeat (destruct Hin as [<-|Hin]; [reflexivity|]). contradiction.
Qed.

(** ** Seeding *)

Lemma insert_programs_result (values : list (Z -> Program.t)) (db : DB) :
  insert_programs values db
  = (Resolved (numbered_from (programs_id_seq db) values),
     set_programsTable
       (programsTable db ++ numbered_from (programs_id_seq db) values)
       (programs_id_seq db + Z.of_nat (List.length values)) db).
Proof.
  revert db. induction values as [|v values IH]; intros db.
  - destruct db. unfold set_programsTable. simpl.
    now rewrite app_nil_r, Z.add_0_r.
  - cbn [insert_programs]. unfold bind at 1. unfold insert_program at 1.
    unfold bind at 1. rewrite IH. unfold ret. destruct db.
    unfold set_programsTable. cbn [programsTable programs_id_seq usersTable
      registrationsTable linkClicksTable payoutRequestsTable users_id_seq
      registrations_id_seq link_clicks_id_seq payout_requests_id_seq
      numbered_from List.length].
    rewrite <- app_assoc. cbn [app]. do 2 f_equal. lia.
Qed.

Lemma numbered_from_ids (seq : Z) (values : list (Z -> Program.t)) :
  (forall v id, In v values -> Program.id (v id) = id) ->
  map Program.id (numbered_from seq values)
  = map (fun i => seq + Z.of_nat i) (List.seq 1 (List.length values)).
Proof.
  revert seq. induction values as [|v values IH]; intros seq Hid; [reflexivity|].
  cbn [numbered_from map List.length List.seq].
  rewrite (Hid v _ (or_introl eq_refl)).
  rewrite IH by (intros v' id Hin; apply Hid; now right).
  f_equal. rewrite <- (seq_shift _ 1), map_map. apply map_ext. intros i. lia.
Qed.

Lemma numbered_from_Forall (P : Program.t -> Prop) (values : list (Z -> Program.t)) :
  Forall (fun v => forall id, P (v id)) values ->
  forall seq, Forall P (numbered_from seq values).
Proof.
  induction 1 as [|v values Hv _ IH]; intros seq; constructor; auto.
Qed.

Lemma numbered_from_columns (seq : Z) (now : Date)
    (progs : list (string * ProgramType * Q * Q * CommissionType)) :
  map seed_columns
    (numbered_from seq
       (map (fun prog id =>
               let '(name, type, fee, commission_rate, commission_type) := prog in
               Program.mk id name type fee commission_rate commission_type
                 (Some (name ++ " program offered by English Booster")) true now now)
            progs))
  = progs.
Proof.
  revert seq. induction progs as [|[[[[name type] fee] rate] ctype] progs IH];
    intros seq; [reflexivity|].
  cbn [map numbered_from]. now rewrite IH.
Qed.

(** X22: [seedPrograms] always appends its thirty programs, in the order of
    its list, under the next thirty ids and returns them; each is active,
    described as "<name> program offered by English Booster", and earns a
    positive commission on which the clamped [calculateCommission] and the
    unclamped amount of [createRegistration] agree. It checks nothing first:
    a second call adds the same thirty programs again under new ids. *)
Theorem seedPrograms_result (now : Date) (db : DB) :
  exists programs,
    seedPrograms now db
    = (Resolved programs,
       set_programsTable (programsTable db ++ programs) (programs_id_seq db + 30) db)
    /\ map seed_columns programs = seed_programs
    /\ map Program.id programs
       = map (fun i => programs_id_seq db + Z.of_nat i) (List.seq 1 30)
    /\ Forall (fun p =>
                 Program.is_active p = true
                 /\ Program.description p
                    = Some (Program.name p ++ " program offered by English Booster")
                 /\ Program.created_at p = now /\ Program.updated_at p = now
                 /\ (0 < commissionAmount p)%Q
                 /\ calculateCommission p = commissionAmount p) programs
    /\ forall now',
         map Program.name (programsTable (snd (seedPrograms now' (snd (seedPrograms now db)))))
         = (map Program.name (programsTable db)
            ++ map Program.name programs ++ map Program.name programs)%list.
Proof.
  unfold seedPrograms. rewrite insert_programs_result.
  eexists. split; [reflexivity|]. split; [|split; [|split]].
  - apply numbered_from_columns.
  - rewrite numbered_from_ids; [reflexivity|].
    intros v id Hin. apply in_map_iff in Hin.
    destruct Hin as ([[[[name type] fee] rate] ctype] & <- & _). reflexivity.
  - apply numbered_from_Forall. apply Forall_map.
    unfold seed_programs.
    repeat (constructor; [intros id; repeat split; reflexivity|]). constructor.
  - intros now'.
    assert (Hnames : forall seq t, map Program.name
              (numbered_from seq
                 (map (fun prog id =>
                         let '(name, type, fee, commission_rate, commission_type) := prog in
                         Program.mk id name type fee commission_rate commission_type
                           (Some (name ++ " program offered by English Booster"))
                           true t t) seed_programs))
            = map (fun prog => let '(name, _, _, _, _) := prog in name) seed_programs).
    { intros seq t. rewrite <- (numbered_from_columns seq t seed_programs) at 2.
      rewrite map_map. apply map_ext. now intros []. }
    rewrite insert_programs_result. cbn [snd].
    unfold set_programsTable. cbn [programsTable programs_id_seq].
    rewrite !map_app, <- app_assoc, !Hnames. reflexivity.
Qed.

(** ** Balances in the stores the handlers build *)






(** ** Affiliates and their codes in the stores the handlers build *)

Lemma reachable_well_formed (hashPassword : string -> string) (db : DB) :
  reachable hashPassword db -> users_well_formed db.
Proof.
  intros Hreach. induction Hreach as [|db db' _ IH Hstep].
  - unfold users_well_formed. simpl.
    split; [constructor|]. split; [constructor|intros u []].
  - exact (step_users_well_formed _ _ _ Hstep IH).
Qed.

Lemma find_by_code (users : list User.t) (u : User.t) (code : string) :
  NoDup (affiliate_codes users) -> In u users -> User.affiliate_code u = Some code ->
  find (fun x => eq_nullable (User.affiliate_code x) code) users = Some u.
Proof.
  induction users as [|x users IH]; intros Hnodup Hin Hcode; [contradiction|].
  cbn [find]. destruct Hin as [->|Hin].
  - unfold eq_nullable. now rewrite Hcode, String.eqb_refl.
  - assert (Htail : NoDup (affiliate_codes users)).
    { simpl in Hnodup. destruct (User.affiliate_code x); [now inversion Hnodup|exact Hnodup]. }
    destruct (eq_nullable (User.affiliate_code x) code) eqn:E; [|now apply IH].
    exfalso. unfold eq_nullable in E.
    destruct (User.affiliate_code x) as [c|] eqn:Hx; [|discriminate].
    apply String.eqb_eq in E. subst c. simpl in Hnodup. rewrite Hx in Hnodup.
    inversion Hnodup as [|? ? Hnotin _]. apply Hnotin.
    apply affiliate_codes_In. now exists u.
Qed.

Lemma getAffiliateByCode_find (code : string) (db : DB) :
  getAffiliateByCode code db
  = (Resolved (find (fun u => eq_nullable (User.affiliate_code u) code) (usersTable db)),
     db).
Proof.
  unfold getAffiliateByCode, bind, query.
  induction (usersTable db) as [|x rows IH]; [reflexivity|].
  cbn [filter find]. destruct (eq_nullable (User.affiliate_code x) code); [reflexivity|].
  exact IH.
Qed.

(** X24: in every store the handlers build from the empty one,
    [getAllAffiliates] lists exactly the users with role affiliate, each of
    them carries a code by which [getAffiliateByCode] finds that very user,
    and every user [getAffiliateByCode] finds is in the list: a code never
    leads to an admin or to another affiliate. *)
Theorem getAllAffiliates_found_by_code (hashPassword : string -> string) (db : DB) :
  reachable hashPassword db ->
  exists affiliates,
    getAllAffiliates db = (Resolved affiliates, db)
    /\ (forall u, In u affiliates <-> In u (usersTable db) /\ User.role u = affiliate)
    /\ (forall u, In u affiliates ->
          exists code, User.affiliate_code u = Some code
            /\ getAffiliateByCode code db = (Resolved (Some u), db))
    /\ (forall code u,
          getAffiliateByCode code db = (Resolved (Some u), db) -> In u affiliates).
Proof.
  intros Hreach. apply reachable_well_formed in Hreach.
  destruct Hreach as (_ & Hcodes & Hroles).
  assert (Hlist : forall u,
            In u (filter (fun u => UserRole_eqb (User.role u) affiliate) (usersTable db))
            <-> In u (usersTable db) /\ User.role u = affiliate).
  { intros u. rewrite filter_In. split; intros [Hin Hrole]; (split; [exact Hin|]).
    - now destruct (User.role u).
    - now rewrite Hrole. }
  eexists. split; [reflexivity|]. split; [exact Hlist|]. split.
  - intros u Hu. apply Hlist in Hu. destruct Hu as [Hin Hrole].
    destruct (User.affiliate_code u) as [code|] eqn:Hcode.
    + exists code. split; [reflexivity|].
      now rewrite getAffiliateByCode_find, (find_by_code _ u code).
    + exfalso. assert (User.role u = admin) by now apply (Hroles u Hin). congruence.
  - intros code u Hfound. rewrite getAffiliateByCode_find in Hfound.
    injection Hfound as Hfind. apply find_some in Hfind. destruct Hfind as [Hin Hc].
    apply Hlist. split; [exact Hin|].
    destruct (User.role u) eqn:Hrole; [reflexivity|]. exfalso.
    assert (Hnone : User.affiliate_code u = None) by now apply (Hroles u Hin).
    unfold eq_nullable in Hc. rewrite Hnone in Hc. discriminate.
Qed.

Lemma getAllAffiliates_found_by_code_witness :
  reachable toy_hash db_built
  /\ exists affiliates, getAllAffiliates db_built = (Resolved affiliates, db_built).
Proof.
  split; [exact db_built_reachable|].
  destruct (getAllAffiliates_found_by_code toy_hash db_built db_built_reachable)
    as (affiliates & Hlist & _).
  now exists affiliates.
Defined.

(** ** Listing payout requests *)


